(** * Svarog: token validation and refresh coordination

    A shallow embedding of [src/lib/server/token.ts]: the credential
    validator [ValidateAccess], the refresh coordinator
    [handleTokenRefresh] with its process-wide table [refreshingStates],
    and the resolvers [getUserFromToken], [isAuthenticated] and
    [requireAuth].

    The functions are [async]: every [await] is a point where other
    request handlers of the same process may run.  A call is therefore a
    computation over a [World] holding the shared table, the request's
    cookie jar, the clock, the script of what the other handlers do at
    each suspension point, and the trace of what this call did. *)

From Stdlib Require Import ZArith Ascii String List Bool Lia.
From stdpp Require Import base gmap strings list pretty.

Local Open Scope string_scope.
Local Open Scope Z_scope.

(** ** JavaScript values *)

Module Js.

(** The values a decoded JSON claim may hold, as far as the code
    inspects them.  [Number] holds the whole-second timestamps of a JWT
    NumericDate; a NumericDate with a fraction of a second has no value
    here, so what is stated of [Number z] is stated of whole seconds. *)
Inductive Value : Type :=
| Undefined
| Null
| Boolean (b : bool)
| Number (z : Z)
| Str (s : string).

(** ToBoolean *)
Definition truthy (v : Value) : bool :=
  match v with
  | Undefined | Null => false
  | Boolean b => b
  | Number z => negb (z =? 0)
  | Str s => negb (String.eqb s "")
  end.

(** [typeof v === 'number'] *)
Definition is_number (v : Value) : bool :=
  match v with Number _ => true | _ => false end.

(** The number held by a value whose [typeof] is ['number']. *)
Definition number_of (v : Value) : Z :=
  match v with Number z => z | _ => 0 end.

(** ToBoolean of a [string | undefined] (or [string | null]). *)
Definition present (o : option string) : bool :=
  match o with
  | Some s => negb (String.eqb s "")
  | None => false
  end.

(** [a || b] on [string | undefined]. *)
Definition or_else (o : option string) (d : option string) : option string :=
  if present o then o else d.

(** [a || 'literal'] *)
Definition or_default (o : option string) (d : string) : string :=
  match o with
  | Some s => if String.eqb s "" then d else s
  | None => d
  end.

(** *** encodeURIComponent

    Every byte except the unreserved marks
    [A-Z a-z 0-9 - _ . ! ~ * ' ( )] becomes [%XX] in upper-case
    hexadecimal.  Strings are byte strings, so a UTF-8 encoded code
    point is escaped byte by byte, as the built-in does. *)
Definition unreserved (c : ascii) : bool :=
  let n := N_of_ascii c in
  ((65 <=? n) && (n <=? 90) || (97 <=? n) && (n <=? 122)
   || (48 <=? n) && (n <=? 57))%N
  || existsb (Ascii.eqb c)
       ["-"; "_"; "."; "!"; "~"; "*"; "'"; "("; ")"]%char.

Definition hex_digit (n : N) : ascii :=
  (if n <? 10 then ascii_of_N (48 + n) else ascii_of_N (55 + n))%N.

Definition percent (c : ascii) : string :=
  let n := N_of_ascii c in
  String "%" (String (hex_digit (n / 16)) (String (hex_digit (n mod 16)) "")).

Fixpoint encodeURIComponent (s : string) : string :=
  match s with
  | EmptyString => ""
  | String c rest =>
      (if unreserved c then String c "" else percent c)
      +:+ encodeURIComponent rest
  end.

End Js.

(** ** Claims, errors and outcomes *)

(** The decoded payload of a token: a JSON object. *)
Abbreviation JWTPayload := (gmap string Js.Value).

(** [payload.exp] *)
Definition payload_exp (payload : JWTPayload) : Js.Value :=
  default Js.Undefined (payload !! "exp").

(** The [Error] objects the module meets.  The first four are built in
    [token.ts]; the others are rejections of its collaborators. *)
Inductive Error : Type :=
| TokenAboutToExpire            (* 'Token about to expire' *)
| NoRefreshToken                (* 'No refresh token available' *)
| RefreshFailed (status : Z)    (* `Refresh failed with status: ${status}` *)
| NoNewAccessToken              (* 'No new access token provided after refresh' *)
| JoseError (code : string)     (* rejection of importSPKI or jwtVerify *)
| FetchError (reason : string). (* rejection of event.fetch *)

Definition message (e : Error) : string :=
  match e with
  | TokenAboutToExpire => "Token about to expire"
  | NoRefreshToken => "No refresh token available"
  | RefreshFailed status => "Refresh failed with status: " +:+ pretty status
  | NoNewAccessToken => "No new access token provided after refresh"
  | JoseError code => code
  | FetchError reason => reason
  end.

(** What a [throw] carries: an [Error], or SvelteKit's [redirect]. *)
Inductive Thrown : Type :=
| ThrownError (e : Error)
| Redirect (status : Z) (location : string).

Inductive Outcome (A : Type) : Type :=
| Returned (a : A)
| Threw (t : Thrown).
Arguments Returned {A} a.
Arguments Threw {A} t.

(** ** The world of a call *)

(** What another request handler may do while this one is suspended.
    The table is private to the module, so the others touch it only by
    [set(k, true)] and [delete(k)]. *)
Inductive Interference : Type :=
| OtherSets (sessionId : string)
| OtherDeletes (sessionId : string)
| CookieStored (name value : string)
| CookieDropped (name : string)
| TimePasses (ms : Z).

(** What this call does that can be observed from outside. *)
Inductive Event : Type :=
| SetTimeout (ms : Z)
| CallImportSPKI (spki alg : string)
| CallJwtVerify (jwt : string)
| CallFetch (url cookieHeader : string)
| ConsoleError (error : Thrown)
| MapSet (sessionId : string)
| MapDelete (sessionId : string).

Record World : Type := mkWorld {
  refreshingStates : gmap string bool;  (* new Map<string, boolean>() *)
  cookies : gmap string string;         (* event.cookies *)
  clock : Z;                            (* Date.now(), milliseconds *)
  pending : list (list Interference);   (* one batch per suspension point *)
  trace : list Event                    (* oldest first *)
}.

Definition advance (ms : Z) (w : World) : World :=
  mkWorld (refreshingStates w) (cookies w) (clock w + ms) (pending w)
          (trace w).

Definition interfere (i : Interference) (w : World) : World :=
  match i with
  | OtherSets k =>
      mkWorld (<[k := true]> (refreshingStates w)) (cookies w) (clock w)
              (pending w) (trace w)
  | OtherDeletes k =>
      mkWorld (delete k (refreshingStates w)) (cookies w) (clock w)
              (pending w) (trace w)
  | CookieStored n v =>
      mkWorld (refreshingStates w) (<[n := v]> (cookies w)) (clock w)
              (pending w) (trace w)
  | CookieDropped n =>
      mkWorld (refreshingStates w) (delete n (cookies w)) (clock w)
              (pending w) (trace w)
  | TimePasses ms => advance ms w
  end.

(** The other handlers run their next batch; with nothing scripted the
    call resumes in the world it left. *)
Definition resume (w : World) : World :=
  match pending w with
  | [] => w
  | batch :: later =>
      fold_left (fun w' i => interfere i w') batch
        (mkWorld (refreshingStates w) (cookies w) (clock w) later (trace w))
  end.

Definition record (e : Event) (w : World) : World :=
  mkWorld (refreshingStates w) (cookies w) (clock w) (pending w)
          (trace w ++ [e]).

(** ** Computations *)

Definition M (A : Type) : Type := World -> Outcome A * World.

Definition ret {A} (a : A) : M A := fun w => (Returned a, w).

Definition bind {A B} (m : M A) (k : A -> M B) : M B :=
  fun w =>
    match m w with
    | (Returned a, w') => k a w'
    | (Threw t, w') => (Threw t, w')
    end.

Definition throw {A} (t : Thrown) : M A := fun w => (Threw t, w).

(** [try { body } catch (error) { handler }] *)
Definition try_catch {A} (body : M A) (handler : Thrown -> M A) : M A :=
  fun w =>
    match body w with
    | (Returned a, w') => (Returned a, w')
    | (Threw t, w') => handler t w'
    end.

(** [try { body } finally { cleanup }], for a cleanup that completes
    normally. *)
Definition try_finally {A} (body : M A) (cleanup : World -> World) : M A :=
  fun w => let (o, w') := body w in (o, cleanup w').

Definition gets {A} (f : World -> A) : M A := fun w => (Returned (f w), w).
Definition modify (f : World -> World) : M unit := fun w => (Returned tt, f w).

(** [await p]: [p] settles, the handler is suspended, and it resumes with
    the value or the rejection of [p]. *)
Definition await {A} (p : M A) : M A :=
  fun w => let (o, w') := p w in (o, resume w').

(** A promise of a collaborator, settled by [settle] in the world of the
    call; a rejection carries the collaborator's reason and is thrown as
    the [Error] that [wrap] makes of it. *)
Definition external {A} (e : Event) (wrap : string -> Error)
    (settle : World -> string + A) : M A :=
  fun w =>
    let w' := record e w in
    match settle w' with
    | inr a => (Returned a, w')
    | inl reason => (Threw (ThrownError (wrap reason)), w')
    end.

Declare Scope comp_scope.
Delimit Scope comp_scope with comp.
Bind Scope comp_scope with M.
Notation "'do' x <~ m ; k" := (bind m (fun x => k))
  (at level 10, x name, m at level 100, k at level 200,
   format "'[v' 'do'  x  <~  m ; '/' k ']'") : comp_scope.
Notation "m ;> k" := (bind m (fun _ => k))
  (at level 100, k at level 200, right associativity) : comp_scope.
Local Open Scope comp_scope.

(** Outcome and final world of a call. *)
Definition outcome {A} (m : M A) (w : World) : Outcome A := fst (m w).
Definition after {A} (m : M A) (w : World) : World := snd (m w).

(** ** Operations on the world *)

(** [event.cookies.get(name)] *)
Definition cookies_get (name : string) : M (option string) :=
  gets (fun w => cookies w !! name).

(** [refreshingStates.get(sessionId)], read as a condition. *)
Definition refreshing (sessionId : string) (w : World) : bool :=
  match refreshingStates w !! sessionId with
  | Some b => b
  | None => false
  end.

(** [refreshingStates.set(sessionId, true)] *)
Definition mark (sessionId : string) (w : World) : World :=
  record (MapSet sessionId)
    (mkWorld (<[sessionId := true]> (refreshingStates w)) (cookies w)
             (clock w) (pending w) (trace w)).

(** [refreshingStates.delete(sessionId)] *)
Definition unmark (sessionId : string) (w : World) : World :=
  record (MapDelete sessionId)
    (mkWorld (delete sessionId (refreshingStates w)) (cookies w)
             (clock w) (pending w) (trace w)).

(** [await new Promise((resolve) => setTimeout(resolve, ms))] *)
Definition sleep (ms : Z) : M unit :=
  await (modify (fun w => record (SetTimeout ms) (advance ms w))).

(** [Math.floor(Date.now() / 1000)] *)
Definition now_seconds (w : World) : Z := clock w / 1000.

(** ** The collaborators

    What [token.ts] imports and does not implement: the private
    environment, jose's key import and signature verification, and the
    request's [fetch]. *)

(** A key imported from SPKI text for an algorithm. *)
Inductive CryptoKey : Type :=
| ImportedKey (spki alg : string).

(** The part of a [Response] the code reads. *)
Record Response : Type := mkResponse {
  ok : bool;
  status : Z
}.

(** A settled [event.fetch]: the response and the cookies its
    [set-cookie] headers store in the request's jar. *)
Record Fetched : Type := mkFetched {
  response : Response;
  set_cookies : list (string * string)
}.

Class Collaborators : Type := {
  (** [env.spki], [env.alg] *)
  env_spki : option string;
  env_alg : option string;
  (** [importSPKI(spki, alg)] *)
  importSPKI : string -> string -> string + CryptoKey;
  (** [jwtVerify(jwt, key, { issuer })], at a time in milliseconds:
      the decoded payload when signature and issuer verify. *)
  jwtVerify : string -> CryptoKey -> string -> Z -> string + JWTPayload;
  (** [event.fetch(url, { headers: { Cookie, Accept } })] in a jar at a
      time. *)
  fetch : string -> string -> gmap string string -> Z -> string + Fetched
}.

(** The request: [event.request.headers], [event.url]. *)
Record RequestEvent : Type := mkRequestEvent {
  headers : gmap string string;
  url_pathname : string;
  url_search : string
}.

Definition store_cookies (l : list (string * string)) (w : World) : World :=
  mkWorld (refreshingStates w)
          (fold_left (fun jar nv => <[fst nv := snd nv]> jar) l (cookies w))
          (clock w) (pending w) (trace w).

Section Token.

Context `{Collaborators}.

(** *** ValidateAccess (token.ts, lines 13-33) *)

Definition EXPIRY_BUFFER : Z := 30.

(** Lines 24-30. *)
Definition expiry_check (payload : JWTPayload) : M unit :=
  let exp := payload_exp payload in
  if Js.truthy exp && Js.is_number exp then
    do now <~ gets now_seconds;
    if Js.number_of exp - now <? EXPIRY_BUFFER
    then throw (ThrownError TokenAboutToExpire)
    else ret tt
  else ret tt.

Definition ValidateAccess (jwt : string) : M JWTPayload :=
  let spki := Js.or_default env_spki "" in
  let alg := Js.or_default env_alg "RS256" in
  do publicKey <~ await (external (CallImportSPKI spki alg) JoseError
                           (fun _ => importSPKI spki alg));
  do payload <~ await (external (CallJwtVerify jwt) JoseError
                         (fun w => jwtVerify jwt publicKey "auth:auth" (clock w)));
  expiry_check payload ;>
  ret payload.

(** *** handleTokenRefresh (token.ts, lines 49-103) *)

(** Lines 54-57: [while (refreshingStates.get(sessionId) && attempts <
    30)], with [remaining = 30 - attempts]; the result is [attempts]
    when the loop ends. *)
Fixpoint wait_while_refreshing (sessionId : string) (remaining : nat)
  : M Z :=
  fun w =>
    match remaining with
    | O => (Returned 30, w)
    | S remaining' =>
        if refreshing sessionId w then
          (sleep 100 ;> wait_while_refreshing sessionId remaining') w
        else (Returned (30 - Z.of_nat remaining), w)
    end.

(** Lines 60-67: after the wait, one validation of the access token now
    in the jar; [Some payload] is the early [return], [None] falls
    through. *)
Definition use_token_after_wait : M (option JWTPayload) :=
  do accessToken <~ cookies_get "accessToken";
  if Js.present accessToken then
    try_catch
      (do payload <~ await (ValidateAccess (default "" accessToken));
       ret (Some payload))
      (fun error => ret None)
  else ret None.

(** Lines 51-68. *)
Definition wait_for_other_refresh (sessionId : string)
  : M (option JWTPayload) :=
  do already <~ gets (refreshing sessionId);
  if already then
    wait_while_refreshing sessionId 30 ;>
    use_token_after_wait
  else ret None.

(** Lines 74-95: the body of the [try]. *)
Definition refresh_exchange : M JWTPayload :=
  do refreshToken <~ cookies_get "refreshToken";
  if negb (Js.present refreshToken) then
    throw (ThrownError NoRefreshToken)
  else
    let cookieHeader := "refreshToken=" +:+ default "" refreshToken in
    do refreshRes <~ await (
         do fetched <~ external (CallFetch "/auth/refresh" cookieHeader)
                         FetchError
                         (fun w => fetch "/auth/refresh" cookieHeader
                                     (cookies w) (clock w));
         modify (store_cookies (set_cookies fetched)) ;>
         ret (response fetched));
    if negb (ok refreshRes) then
      throw (ThrownError (RefreshFailed (status refreshRes)))
    else
      do newAccessToken <~ cookies_get "accessToken";
      if negb (Js.present newAccessToken) then
        throw (ThrownError NoNewAccessToken)
      else
        await (ValidateAccess (default "" newAccessToken)).

(** Lines 71-102: the caller's own attempt, under its own mark. *)
Definition own_refresh (sessionId : string) : M JWTPayload :=
  modify (mark sessionId) ;>
  try_finally
    (try_catch refresh_exchange
       (fun error =>
          modify (record (ConsoleError error)) ;>
          throw (Redirect 302 "/auth/login")))
    (unmark sessionId).

(** The function; a caller that leaves [sessionId] out passes
    ['default'].  Cookies and [fetch] of [event] live in the world and the
    collaborators. *)
Definition handleTokenRefresh (event : RequestEvent) (sessionId : string)
  : M JWTPayload :=
  do early <~ wait_for_other_refresh sessionId;
  match early with
  | Some payload => ret payload
  | None => own_refresh sessionId
  end.

(** *** getUserFromToken (lines 112-136); [None] is [null] *)

Definition session_id (event : RequestEvent) (w : World) : string :=
  Js.or_default
    (Js.or_else (headers event !! "x-session-id") (cookies w !! "sessionId"))
    "default".

Definition getUserFromToken (event : RequestEvent)
  : M (option JWTPayload) :=
  do accessToken <~ cookies_get "accessToken";
  do sessionId <~ gets (session_id event);
  if Js.present accessToken then
    try_catch
      (do payload <~ await (ValidateAccess (default "" accessToken));
       ret (Some payload))
      (fun error =>
         do refreshToken <~ cookies_get "refreshToken";
         if Js.present refreshToken then
           do payload <~ await (handleTokenRefresh event sessionId);
           ret (Some payload)
         else ret None)
  else
    do refreshToken <~ cookies_get "refreshToken";
    if Js.present refreshToken then
      do payload <~ await (handleTokenRefresh event sessionId);
      ret (Some payload)
    else ret None.

(** *** isAuthenticated (lines 144-151) *)

Definition isAuthenticated (event : RequestEvent) : M bool :=
  try_catch
    (do user <~ await (getUserFromToken event);
     ret (match user with Some _ => true | None => false end))
    (fun error => ret false).

(** *** requireAuth (lines 160-169) *)

Definition requireAuth (event : RequestEvent) : M JWTPayload :=
  do user <~ await (getUserFromToken event);
  match user with
  | None =>
      let returnUrl := url_pathname event +:+ url_search event in
      throw (Redirect 302
               ("/auth/login?returnUrl=" +:+ Js.encodeURIComponent returnUrl))
  | Some payload => ret payload
  end.

(** *** Worlds met during a validation *)

(** The world in which [ValidateAccess jwt], started in [w], runs its
    expiry check: both awaits are behind it. *)
Definition checked_world (jwt : string) (w : World) : World :=
  let spki := Js.or_default env_spki "" in
  let alg := Js.or_default env_alg "RS256" in
  resume (record (CallJwtVerify jwt)
            (resume (record (CallImportSPKI spki alg) w))).

(** Signature and issuer of [jwt] verify, for a validation started in
    [w], and the token decodes to [payload]. *)
Definition verifies (jwt : string) (w : World) (payload : JWTPayload)
  : Prop :=
  exists key,
    importSPKI (Js.or_default env_spki "") (Js.or_default env_alg "RS256")
      = inr key /\
    jwtVerify jwt key "auth:auth" (clock (resume w)) = inr payload.

(** What the module relies on from jose's own expiry check: [jwtVerify]
    resolves with a payload whose [exp] is a number only when that
    number is after the time of verification, in whole seconds. *)
Definition rejects_expired : Prop :=
  forall jwt key issuer now_ms payload exp,
    jwtVerify jwt key issuer now_ms = inr payload ->
    payload_exp payload = Js.Number exp ->
    now_ms / 1000 < exp.

(** *** Worlds met during a refresh *)

(** The world in which the exchange started in [w] with the refresh
    token [refreshToken] resumes, once [fetched] has settled. *)
Definition fetched_world (refreshToken : string) (fetched : Fetched)
    (w : World) : World :=
  resume (store_cookies (set_cookies fetched)
            (record (CallFetch "/auth/refresh"
                       ("refreshToken=" +:+ refreshToken)) w)).

(** What [event.fetch] settles to for [refreshToken] in [w]. *)
Definition exchange_of (refreshToken : string) (w : World)
  : string + Fetched :=
  fetch "/auth/refresh" ("refreshToken=" +:+ refreshToken)
        (cookies w) (clock w).

End Token.

(** ** Reading a trace *)

Definition is_timeout (e : Event) : bool :=
  match e with SetTimeout _ => true | _ => false end.

Definition is_verification (e : Event) : bool :=
  match e with CallJwtVerify _ => true | _ => false end.

Definition is_fetch (e : Event) : bool :=
  match e with CallFetch _ _ => true | _ => false end.

Fixpoint count (p : Event -> bool) (t : list Event) : nat :=
  match t with
  | [] => O
  | e :: t' => if p e then S (count p t') else count p t'
  end.

(** How often the call slept, ran the signature verification of the
    validator, and called the refresh endpoint. *)
Definition sleeps (t : list Event) : nat := count is_timeout t.
Definition validations (t : list Event) : nat := count is_verification t.
Definition exchanges (t : list Event) : nat := count is_fetch t.

(** ** Relating the worlds before and after a computation *)

Definition preserves (R : World -> World -> Prop) {A} (m : M A) : Prop :=
  forall w, R w (after m w).

(** The trace is only added to. *)
Definition extends (w w' : World) : Prop :=
  exists l, trace w' = (trace w ++ l)%list.

(** Nothing is scripted for the other handlers: the call runs alone. *)
Definition alone (w : World) : Prop := pending w = [].

(** Run alone, a computation leaves the table and the jar as they
    were. *)
Definition undisturbed (w w' : World) : Prop :=
  alone w ->
  alone w' /\ refreshingStates w' = refreshingStates w /\
  cookies w' = cookies w.

(** ** A concrete deployment

    Collaborators to run the code on: a verifier for four known tokens
    that, like jose, rejects a token whose [exp] is not after the time of
    verification, and an authentication service that accepts one refresh
    token. *)

Module Demo.

Definition claims (exp : Js.Value) : JWTPayload :=
  {[ "iss" := Js.Str "auth:auth"; "exp" := exp ]}.

Definition decode (jwt : string) : option JWTPayload :=
  if String.eqb jwt "good" then Some (claims (Js.Number 2000))
  else if String.eqb jwt "stale" then Some (claims (Js.Number 1010))
  else if String.eqb jwt "zero" then Some (claims (Js.Number 0))
  else if String.eqb jwt "timeless" then Some {[ "iss" := Js.Str "auth:auth" ]}
  else None.

Definition verify (jwt : string) (now_ms : Z) : string + JWTPayload :=
  match decode jwt with
  | None => inl "ERR_JWS_SIGNATURE_VERIFICATION_FAILED"
  | Some payload =>
      match payload_exp payload with
      | Js.Number exp =>
          if exp <=? now_ms / 1000 then inl "ERR_JWT_EXPIRED"
          else inr payload
      | _ => inr payload
      end
  end.

Definition exchange (cookieHeader : string) : string + Fetched :=
  if String.eqb cookieHeader "refreshToken=r1"
  then inr (mkFetched (mkResponse true 200) [("accessToken", "good")])
  else if String.eqb cookieHeader "refreshToken=r0"
  then inr (mkFetched (mkResponse true 204) [])
  else inr (mkFetched (mkResponse false 401) []).

#[export] Instance collaborators : Collaborators := {|
  env_spki := Some "-----BEGIN PUBLIC KEY-----";
  env_alg := None;
  importSPKI := fun spki alg => inr (ImportedKey spki alg);
  jwtVerify := fun jwt _ _ now_ms => verify jwt now_ms;
  fetch := fun _ cookieHeader _ _ => exchange cookieHeader
|}.

(** A request for [/dashboard?tab=a b]. *)
Definition event : RequestEvent :=
  mkRequestEvent ∅ "/dashboard" "?tab=a b".

(** A quiet process at second 1000: no refresh in flight, nothing
    scripted. *)
Definition quiet (jar : gmap string string) : World :=
  mkWorld ∅ jar 1000000 [] [].

(** Another request holds the mark of ["default"] and keeps it. *)
Definition contended (jar : gmap string string) : World :=
  mkWorld {[ "default" := true ]} jar 1000000 [] [].

(** A process whose clock stands ten seconds before the epoch. *)
Definition before_epoch : World := mkWorld ∅ ∅ (-10000) [] [].

(** The holder of the mark releases it during the third sleep. *)
Definition released (jar : gmap string string) : World :=
  mkWorld {[ "default" := true ]} jar 1000000
          [[]; []; [OtherDeletes "default"]] [].

End Demo.

(** ** Further relations between worlds *)

(** Run alone, a computation leaves table, jar and clock as they were. *)
Definition untouched (w w' : World) : Prop :=
  alone w ->
  alone w' /\ refreshingStates w' = refreshingStates w /\
  cookies w' = cookies w /\ clock w' = clock w.

(** Run alone, a computation leaves the table as it was. *)
Definition table_kept (w w' : World) : Prop :=
  alone w -> alone w' /\ refreshingStates w' = refreshingStates w.

(** From [w] to [w'] at most [s] sleeps, [f] calls of the refresh
    endpoint and [v] signature verifications were added to the trace. *)
Definition within (s f v : nat) (w w' : World) : Prop :=
  (sleeps (trace w') <= sleeps (trace w) + s)%nat /\
  (exchanges (trace w') <= exchanges (trace w) + f)%nat /\
  (validations (trace w') <= validations (trace w) + v)%nat.

(** The world a caller wakes up in after one sleep of 100 ms, and after
    [n] of them. *)
Definition nap (w : World) : World :=
  resume (record (SetTimeout 100) (advance 100 w)).

Definition napped (n : nat) (w : World) : World := Nat.iter n nap w.

(** The location [requireAuth] redirects to when nothing could be
    resolved (line 165). *)
Definition login_with_return (event : RequestEvent) : string :=
  "/auth/login?returnUrl="
  +:+ Js.encodeURIComponent (url_pathname event +:+ url_search event).

(** ** Further scenes of the concrete deployment *)

Module Scenes.

(** The deployment of [Demo] with [env.spki] left unset: the key import
    is given the empty string and rejects it. *)
Definition unconfigured : Collaborators := {|
  env_spki := None;
  env_alg := Some "";
  importSPKI := fun spki alg =>
    if String.eqb spki "" then inl "ERR_JOSE_NOT_SUPPORTED"
    else inr (ImportedKey spki alg);
  jwtVerify := fun jwt _ _ now_ms => Demo.verify jwt now_ms;
  fetch := fun _ cookieHeader _ _ => Demo.exchange cookieHeader
|}.

(** A quiet process at a given time. *)
Definition quiet_at (ms : Z) (jar : gmap string string) : World :=
  mkWorld ∅ jar ms [] [].

(** A request that names its session in the [x-session-id] header. *)
Definition named_event (name : string) : RequestEvent :=
  mkRequestEvent {[ "x-session-id" := name ]} "/dashboard" "?tab=a b".

(** Another session, ["tab-2"], is refreshing; nothing is scripted. *)
Definition other_session_busy (jar : gmap string string) : World :=
  mkWorld {[ "tab-2" := true ]} jar 1000000 [] [].

End Scenes.

(** ** Percent-encoding *)

Section Encoding.

Lemma encodeURIComponent_app s1 s2 :
  Js.encodeURIComponent (s1 +:+ s2)
  = Js.encodeURIComponent s1 +:+ Js.encodeURIComponent s2.
Proof.
  induction s1 as [|c s1 IH]; simpl; [done|].
  rewrite IH. by destruct (Js.unreserved c).
Qed.

(** Unreserved text is left as it is. *)
Lemma encodeURIComponent_unreserved s :
  forallb Js.unreserved (list_ascii_of_string s) = true ->
  Js.encodeURIComponent s = s.
Proof.
  induction s as [|c s IH]; cbn [Js.encodeURIComponent list_ascii_of_string forallb];
    [done|].
  intros [Hc Hs]%andb_true_iff. rewrite Hc, (IH Hs). done.
Qed.

(** The two digits of an escape are themselves unreserved. *)
Lemma hex_digit_unreserved n : (n < 16)%N -> Js.unreserved (Js.hex_digit n) = true.
Proof.
  intros Hn.
  assert (n ∈ [0; 1; 2; 3; 4; 5; 6; 7; 8; 9; 10; 11; 12; 13; 14; 15]%N) as Hin.
  { rewrite !elem_of_cons. lia. }
  rewrite !elem_of_cons in Hin.
  repeat (destruct Hin as [->|Hin]; [reflexivity|]).
  by apply elem_of_nil in Hin.
Qed.

(** The encoded text consists of unreserved bytes and [%]. *)
Lemma encodeURIComponent_safe s :
  forallb (fun c => Js.unreserved c || Ascii.eqb c "%")
    (list_ascii_of_string (Js.encodeURIComponent s)) = true.
Proof.
  induction s as [|c s IH]; [done|].
  cbn [Js.encodeURIComponent].
  destruct (Js.unreserved c) eqn:Hc.
  - change (String c "" +:+ ?x) with (String c x).
    cbn [list_ascii_of_string forallb]. by rewrite Hc, IH.
  - unfold Js.percent.
    change (String ?a (String ?b (String ?d "")) +:+ ?x)
      with (String a (String b (String d x))).
    cbn [list_ascii_of_string forallb].
    rewrite IH, !hex_digit_unreserved; [done| |].
    + apply N.mod_lt. lia.
    + apply N.Div0.div_lt_upper_bound.
      pose proof (N_ascii_bounded c). lia.
Qed.

End Encoding.

(** ** Basic facts about worlds *)

Section WorldFacts.

Lemma interfere_trace i w : trace (interfere i w) = trace w.
Proof. destruct i; reflexivity. Qed.

Lemma interfere_record i e w :
  interfere i (record e w) = record e (interfere i w).
Proof. destruct i; reflexivity. Qed.

Lemma batch_trace batch w :
  trace (fold_left (fun w' i => interfere i w') batch w) = trace w.
Proof.
  revert w; induction batch as [|i batch IH]; intros w; simpl; [done|].
  by rewrite IH, interfere_trace.
Qed.

Lemma batch_record batch e w :
  fold_left (fun w' i => interfere i w') batch (record e w)
  = record e (fold_left (fun w' i => interfere i w') batch w).
Proof.
  revert w; induction batch as [|i batch IH]; intros w; simpl; [done|].
  by rewrite interfere_record, IH.
Qed.

Lemma resume_trace w : trace (resume w) = trace w.
Proof.
  unfold resume. destruct (pending w); [done|]. by rewrite batch_trace.
Qed.

Lemma resume_record e w : resume (record e w) = record e (resume w).
Proof.
  unfold resume. simpl. destruct (pending w) as [|batch later]; [done|].
  by rewrite <- batch_record.
Qed.

Lemma record_clock e w : clock (record e w) = clock w.
Proof. reflexivity. Qed.

Lemma record_cookies e w : cookies (record e w) = cookies w.
Proof. reflexivity. Qed.

Lemma record_refreshing e sid w : refreshing sid (record e w) = refreshing sid w.
Proof. reflexivity. Qed.

Lemma sleep_then {A} ms (k : M A) w :
  (sleep ms ;> k)%comp w = k (resume (record (SetTimeout ms) (advance ms w))).
Proof. reflexivity. Qed.

Lemma unmark_absent sid w : refreshingStates (unmark sid w) !! sid = None.
Proof. simpl. apply lookup_delete_eq. Qed.

Lemma mark_refreshing sid w : refreshing sid (mark sid w) = true.
Proof. unfold refreshing. simpl. by rewrite lookup_insert_eq. Qed.

End WorldFacts.

(** ** Computations that preserve a relation between worlds *)

Section Preservation.

Context `{Collaborators}.
Variable R : World -> World -> Prop.
Hypothesis R_refl : forall w, R w w.
Hypothesis R_trans : forall w1 w2 w3, R w1 w2 -> R w2 w3 -> R w1 w3.
Hypothesis R_resume : forall w, R w (resume w).
Hypothesis R_record : forall e w, R w (record e w).
Hypothesis R_advance : forall ms w, R w (advance ms w).

Lemma preserves_ret {A} (a : A) : preserves R (ret a).
Proof. intros w. apply R_refl. Qed.

Lemma preserves_throw {A} t : preserves R (@throw A t).
Proof. intros w. apply R_refl. Qed.

Lemma preserves_gets {A} (f : World -> A) : preserves R (gets f).
Proof. intros w. apply R_refl. Qed.

Lemma preserves_modify (f : World -> World) :
  (forall w, R w (f w)) -> preserves R (modify f).
Proof. intros Hf w. apply Hf. Qed.

Lemma preserves_bind {A B} (m : M A) (k : A -> M B) :
  preserves R m -> (forall a, preserves R (k a)) -> preserves R (bind m k).
Proof.
  intros Hm Hk w. unfold after, bind. specialize (Hm w). unfold after in Hm.
  destruct (m w) as [[a|t] w']; simpl in *; [|done].
  eapply R_trans; [exact Hm|]. apply Hk.
Qed.

Lemma preserves_try_catch {A} (m : M A) (h : Thrown -> M A) :
  preserves R m -> (forall t, preserves R (h t)) ->
  preserves R (try_catch m h).
Proof.
  intros Hm Hh w. unfold after, try_catch. specialize (Hm w).
  unfold after in Hm.
  destruct (m w) as [[a|t] w']; simpl in *; [done|].
  eapply R_trans; [exact Hm|]. apply Hh.
Qed.

Lemma preserves_try_finally {A} (m : M A) (f : World -> World) :
  preserves R m -> (forall w, R w (f w)) -> preserves R (try_finally m f).
Proof.
  intros Hm Hf w. unfold after, try_finally. specialize (Hm w).
  unfold after in Hm.
  destruct (m w) as [o w']; simpl in *.
  eapply R_trans; [exact Hm|]. apply Hf.
Qed.

Lemma preserves_await {A} (m : M A) : preserves R m -> preserves R (await m).
Proof.
  intros Hm w. unfold after, await. specialize (Hm w). unfold after in Hm.
  destruct (m w) as [o w']; simpl in *.
  eapply R_trans; [exact Hm|]. apply R_resume.
Qed.

Lemma preserves_external {A} e wrap (settle : World -> string + A) :
  preserves R (external e wrap settle).
Proof.
  intros w. unfold after, external.
  destruct (settle (record e w)); apply R_record.
Qed.

Lemma preserves_sleep ms : preserves R (sleep ms).
Proof.
  apply preserves_await, preserves_modify. intros w.
  eapply R_trans; [apply R_advance|apply R_record].
Qed.

Lemma preserves_expiry_check payload : preserves R (expiry_check payload).
Proof.
  unfold expiry_check. cbv zeta.
  destruct (_ && _); [|apply preserves_ret].
  apply preserves_bind; [apply preserves_gets|]. intros now.
  destruct (_ <? _); [apply preserves_throw|apply preserves_ret].
Qed.

Lemma preserves_ValidateAccess jwt : preserves R (ValidateAccess jwt).
Proof.
  unfold ValidateAccess.
  apply preserves_bind; [apply preserves_await, preserves_external|].
  intros key.
  apply preserves_bind; [apply preserves_await, preserves_external|].
  intros payload.
  apply preserves_bind; [apply preserves_expiry_check|].
  intros _. apply preserves_ret.
Qed.

Lemma preserves_wait_while_refreshing sid remaining :
  preserves R (wait_while_refreshing sid remaining).
Proof.
  induction remaining as [|remaining IH]; intros w.
  - apply R_refl.
  - unfold after. cbn [wait_while_refreshing].
    destruct (refreshing sid w); [|apply R_refl].
    apply (preserves_bind (sleep 100) (fun _ => wait_while_refreshing sid remaining));
      [apply preserves_sleep|done].
Qed.

Lemma preserves_use_token_after_wait : preserves R use_token_after_wait.
Proof.
  unfold use_token_after_wait.
  apply preserves_bind; [apply preserves_gets|]. intros accessToken.
  destruct (Js.present accessToken); [|apply preserves_ret].
  apply preserves_try_catch; [|intros; apply preserves_ret].
  apply preserves_bind; [apply preserves_await, preserves_ValidateAccess|].
  intros; apply preserves_ret.
Qed.

Lemma preserves_wait_for_other_refresh sid :
  preserves R (wait_for_other_refresh sid).
Proof.
  unfold wait_for_other_refresh.
  apply preserves_bind; [apply preserves_gets|]. intros already.
  destruct already; [|apply preserves_ret].
  apply preserves_bind; [apply preserves_wait_while_refreshing|].
  intros _. apply preserves_use_token_after_wait.
Qed.

End Preservation.

(** *** The trace only grows *)

Section Extends.

Context `{Collaborators}.

Lemma extends_refl w : extends w w.
Proof. exists []. by rewrite app_nil_r. Qed.

Lemma extends_trans w1 w2 w3 : extends w1 w2 -> extends w2 w3 -> extends w1 w3.
Proof.
  intros [l1 E1] [l2 E2]. exists (l1 ++ l2)%list.
  by rewrite E2, E1, app_assoc.
Qed.

Lemma extends_resume w : extends w (resume w).
Proof. exists []. by rewrite resume_trace, app_nil_r. Qed.

Lemma extends_record e w : extends w (record e w).
Proof. by exists [e]. Qed.

Lemma extends_advance ms w : extends w (advance ms w).
Proof. exists []. simpl. by rewrite app_nil_r. Qed.

Lemma extends_store_cookies l w : extends w (store_cookies l w).
Proof. exists []. simpl. by rewrite app_nil_r. Qed.

Lemma ValidateAccess_extends jwt : preserves extends (ValidateAccess jwt).
Proof.
  apply preserves_ValidateAccess;
    [apply extends_refl | apply extends_trans | apply extends_resume
    | apply extends_record].
Qed.

End Extends.

(** *** Run alone, the wait leaves table and jar untouched *)

Section Undisturbed.

Context `{Collaborators}.

Lemma resume_alone w : alone w -> resume w = w.
Proof. unfold alone, resume. by intros ->. Qed.

Lemma undisturbed_refl w : undisturbed w w.
Proof. by intros Hw. Qed.

Lemma undisturbed_trans w1 w2 w3 :
  undisturbed w1 w2 -> undisturbed w2 w3 -> undisturbed w1 w3.
Proof.
  intros H12 H23 Hw1.
  destruct (H12 Hw1) as (Hw2 & Ht & Hc).
  destruct (H23 Hw2) as (Hw3 & Ht' & Hc').
  repeat split; [done|congruence|congruence].
Qed.

Lemma undisturbed_resume w : undisturbed w (resume w).
Proof. intros Hw. by rewrite (resume_alone _ Hw). Qed.

Lemma undisturbed_record e w : undisturbed w (record e w).
Proof. by intros Hw. Qed.

Lemma undisturbed_advance ms w : undisturbed w (advance ms w).
Proof. by intros Hw. Qed.

Lemma wait_for_other_refresh_undisturbed sid :
  preserves undisturbed (wait_for_other_refresh sid).
Proof.
  apply preserves_wait_for_other_refresh;
    [apply undisturbed_refl | apply undisturbed_trans
    | apply undisturbed_resume | apply undisturbed_record
    | apply undisturbed_advance].
Qed.

End Undisturbed.

(** ** The credential validator *)

Section Validator.

Context `{Collaborators}.

(** A verified token reaches the expiry check, in [checked_world]. *)
Lemma ValidateAccess_verified jwt w payload :
  verifies jwt w payload ->
  ValidateAccess jwt w
  = (expiry_check payload ;> ret payload) (checked_world jwt w).
Proof.
  intros (key & Hkey & Hjwt).
  unfold ValidateAccess, checked_world.
  unfold bind at 1. unfold await at 1. unfold external at 1.
  rewrite Hkey.
  unfold bind at 1. unfold await at 1. unfold external at 1.
  rewrite record_clock, resume_record, record_clock, Hjwt.
  by rewrite <- resume_record.
Qed.

Lemma checked_world_clock jwt w :
  clock (checked_world jwt w) = clock (resume (resume w)).
Proof.
  unfold checked_world.
  by rewrite !resume_record, !record_clock.
Qed.

Lemma checked_world_trace jwt w :
  trace (checked_world jwt w)
  = (trace w ++ [CallImportSPKI (Js.or_default env_spki "")
                   (Js.or_default env_alg "RS256");
                 CallJwtVerify jwt])%list.
Proof.
  unfold checked_world.
  rewrite resume_trace. cbn [trace record].
  rewrite resume_trace. cbn [trace record].
  by rewrite <- app_assoc.
Qed.

Lemma expiry_check_world payload w : after (expiry_check payload) w = w.
Proof.
  unfold after, expiry_check. cbv zeta.
  destruct (_ && _); [|done].
  unfold bind, gets. by destruct (_ <? _).
Qed.

Lemma expiry_check_throws payload w t :
  outcome (expiry_check payload) w = Threw t ->
  t = ThrownError TokenAboutToExpire.
Proof.
  unfold outcome, expiry_check. cbv zeta.
  destruct (_ && _); [|done].
  unfold bind, gets. destruct (_ <? _); [|done].
  simpl. congruence.
Qed.

(** The three ways a validation ends. *)
Lemma ValidateAccess_run jwt w :
  (exists payload,
      verifies jwt w payload /\
      ValidateAccess jwt w = (Returned payload, checked_world jwt w)) \/
  (exists payload,
      verifies jwt w payload /\
      ValidateAccess jwt w
      = (Threw (ThrownError TokenAboutToExpire), checked_world jwt w)) \/
  (exists code w',
      ValidateAccess jwt w = (Threw (ThrownError (JoseError code)), w')).
Proof.
  destruct (importSPKI (Js.or_default env_spki "")
              (Js.or_default env_alg "RS256")) as [code|key] eqn:Hkey.
  { right; right. unfold ValidateAccess, bind, await, external.
    rewrite Hkey. eauto. }
  destruct (jwtVerify jwt key "auth:auth" (clock (resume w)))
    as [code|payload] eqn:Hjwt.
  { right; right. unfold ValidateAccess.
    unfold bind at 1. unfold await at 1. unfold external at 1.
    rewrite Hkey.
    unfold bind at 1. unfold await at 1. unfold external at 1.
    rewrite record_clock, resume_record, record_clock, Hjwt. eauto. }
  assert (verifies jwt w payload) as Hv by (exists key; done).
  pose proof (ValidateAccess_verified _ _ _ Hv) as E.
  pose proof (expiry_check_world payload (checked_world jwt w)) as Hw.
  pose proof (expiry_check_throws payload (checked_world jwt w)) as Ht.
  unfold after, outcome, bind in *.
  destruct (expiry_check payload (checked_world jwt w)) as [[[]|t] w'];
    simpl in *; subst w'.
  - left. eauto.
  - right; left. rewrite (Ht t eq_refl) in E. eauto.
Qed.

Lemma ValidateAccess_returned jwt w payload :
  outcome (ValidateAccess jwt) w = Returned payload ->
  ValidateAccess jwt w = (Returned payload, checked_world jwt w).
Proof.
  unfold outcome.
  destruct (ValidateAccess_run jwt w)
    as [(p & _ & E) | [(p & _ & E) | (code & w' & E)]];
    rewrite E; simpl; congruence.
Qed.

Lemma ValidateAccess_throws jwt w t :
  outcome (ValidateAccess jwt) w = Threw t ->
  t = ThrownError TokenAboutToExpire \/
  exists code, t = ThrownError (JoseError code).
Proof.
  unfold outcome.
  destruct (ValidateAccess_run jwt w)
    as [(p & _ & E) | [(p & _ & E) | (code & w' & E)]];
    rewrite E; simpl; intros [= <-]; eauto.
Qed.

End Validator.

Section ValidatorClaims.

Context `{Collaborators}.

(** C8: a token whose signature and issuer verify and whose [exp] lies
    more than the 30 second buffer after the time of the check is
    accepted, and the claims returned are its decoded payload. *)
Theorem ValidateAccess_returns_payload jwt w payload exp :
  verifies jwt w payload ->
  payload_exp payload = Js.Number exp ->
  exp - now_seconds (resume (resume w)) > EXPIRY_BUFFER ->
  outcome (ValidateAccess jwt) w = Returned payload.
Proof.
  intros Hv Hexp Hfar. unfold outcome.
  rewrite (ValidateAccess_verified _ _ _ Hv).
  unfold expiry_check. rewrite Hexp. cbv zeta.
  destruct (_ && _); [|done].
  unfold bind, gets. cbn [Js.number_of].
  unfold now_seconds in *. rewrite checked_world_clock.
  destruct (Z.ltb_spec (exp - clock (resume (resume w)) / 1000) EXPIRY_BUFFER);
    [lia|done].
Qed.

(** The check of lines 25-29 on a verified payload whose [exp] passes
    the guard of line 25, that is, a number other than 0. *)
Lemma ValidateAccess_refuses_nonzero_exp jwt w payload exp :
  verifies jwt w payload ->
  payload_exp payload = Js.Number exp ->
  exp <> 0 ->
  exp - now_seconds (resume (resume w)) < EXPIRY_BUFFER ->
  outcome (ValidateAccess jwt) w = Threw (ThrownError TokenAboutToExpire).
Proof.
  intros Hv Hexp Hnz Hnear. unfold outcome.
  rewrite (ValidateAccess_verified _ _ _ Hv).
  unfold expiry_check. rewrite Hexp. cbv zeta.
  cbn [Js.truthy Js.is_number Js.number_of].
  destruct (Z.eqb_spec exp 0); [done|]. cbn [negb andb].
  unfold bind, gets.
  unfold now_seconds in *. rewrite checked_world_clock.
  destruct (Z.ltb_spec (exp - clock (resume (resume w)) / 1000) EXPIRY_BUFFER);
    [done|lia].
Qed.


(** C10: a verified token whose payload has no numeric [exp] skips the
    expiry check: it is accepted with its payload, so it does not fail
    with 'Token about to expire'. *)
Theorem ValidateAccess_without_numeric_exp jwt w payload :
  verifies jwt w payload ->
  Js.is_number (payload_exp payload) = false ->
  ValidateAccess jwt w = (Returned payload, checked_world jwt w) /\
  outcome (ValidateAccess jwt) w <> Threw (ThrownError TokenAboutToExpire).
Proof.
  intros Hv Hnum.
  assert (ValidateAccess jwt w = (Returned payload, checked_world jwt w)) as E.
  { rewrite (ValidateAccess_verified _ _ _ Hv).
    unfold bind, expiry_check. cbv zeta.
    by rewrite Hnum, andb_false_r. }
  split; [done|]. unfold outcome. by rewrite E.
Qed.

End ValidatorClaims.

(** ** The refresh coordinator *)

Section Coordinator.

Context `{Collaborators}.

Lemma wait_for_other_refresh_idle sid w :
  refreshing sid w = false ->
  wait_for_other_refresh sid w = (Returned None, w).
Proof.
  intros Hidle. unfold wait_for_other_refresh, bind, gets. by rewrite Hidle.
Qed.

(** The loop of lines 54-57: it sleeps [n <= remaining] times, 100 ms
    each, counts them in [attempts], and stops before the cap only when
    the mark is gone. *)
Lemma wait_while_refreshing_spec sid remaining w :
  exists n : nat,
    (n <= remaining)%nat /\
    outcome (wait_while_refreshing sid remaining) w
      = Returned (30 - Z.of_nat remaining + Z.of_nat n) /\
    trace (after (wait_while_refreshing sid remaining) w)
      = (trace w ++ repeat (SetTimeout 100) n)%list /\
    ((n < remaining)%nat ->
     refreshing sid (after (wait_while_refreshing sid remaining) w) = false) /\
    (refreshing sid w = true -> (0 < remaining)%nat -> (1 <= n)%nat).
Proof.
  revert w. induction remaining as [|remaining IH]; intros w.
  - exists O. unfold outcome, after. simpl.
    rewrite app_nil_r. repeat split; auto; lia.
  - unfold outcome, after in *.
    cbn [wait_while_refreshing].
    destruct (refreshing sid w) eqn:Hmark.
    + rewrite sleep_then.
      match goal with
      | |- context [wait_while_refreshing sid remaining ?w1] =>
          destruct (IH w1) as (n & Hle & Hout & Htr & Hstop & _);
          set (w' := w1) in *
      end.
      exists (S n). repeat split.
      * lia.
      * rewrite Hout. f_equal. lia.
      * rewrite Htr. subst w'. rewrite resume_trace. simpl.
        by rewrite <- app_assoc.
      * intros Hlt. apply Hstop. lia.
      * lia.
    + exists O. simpl. rewrite app_nil_r.
      repeat split; auto; try lia; try discriminate.
      f_equal. lia.
Qed.

Lemma wait_while_refreshing_returns sid remaining w :
  exists attempts,
    outcome (wait_while_refreshing sid remaining) w = Returned attempts.
Proof.
  destruct (wait_while_refreshing_spec sid remaining w) as (n & _ & E & _).
  eauto.
Qed.

Lemma use_token_after_wait_returns w :
  exists early, outcome use_token_after_wait w = Returned early.
Proof.
  unfold outcome, use_token_after_wait, bind, cookies_get, gets, try_catch, await.
  destruct (Js.present (cookies w !! "accessToken")); [|by eexists].
  destruct (ValidateAccess _ w) as [[payload|t] w']; by eexists.
Qed.

Lemma wait_for_other_refresh_returns sid w :
  exists early, outcome (wait_for_other_refresh sid) w = Returned early.
Proof.
  unfold outcome, wait_for_other_refresh, bind, gets.
  destruct (refreshing sid w); [|by eexists].
  destruct (wait_while_refreshing_returns sid 30 w) as (attempts & E).
  unfold outcome in E.
  destruct (wait_while_refreshing sid 30 w) as [o w'].
  simpl in E. subst o.
  apply use_token_after_wait_returns.
Qed.

(** The two ways a call ends: the early [return] of line 63, or its own
    attempt. *)
Lemma handleTokenRefresh_cases ev sid w :
  handleTokenRefresh ev sid w
  = match wait_for_other_refresh sid w with
    | (Returned (Some payload), w') => (Returned payload, w')
    | (Returned None, w') => own_refresh sid w'
    | (Threw t, w') => (Threw t, w')
    end.
Proof.
  unfold handleTokenRefresh, bind.
  by destruct (wait_for_other_refresh sid w) as [[[payload|]|t] w'].
Qed.

(** Lines 96-102: the [catch] turns whatever the [try] threw into the
    login redirect, after reporting it; the [finally] deletes the
    mark. *)
Lemma own_refresh_run sid w :
  own_refresh sid w
  = match refresh_exchange (mark sid w) with
    | (Returned payload, w') => (Returned payload, unmark sid w')
    | (Threw t, w') =>
        (Threw (Redirect 302 "/auth/login"),
         unmark sid (record (ConsoleError t) w'))
    end.
Proof.
  unfold own_refresh, bind, modify, try_finally, try_catch, throw.
  by destruct (refresh_exchange (mark sid w)) as [[payload|t] w'].
Qed.

Lemma own_refresh_unmarks sid w :
  refreshingStates (after (own_refresh sid) w) !! sid = None.
Proof.
  unfold after. rewrite own_refresh_run.
  destruct (refresh_exchange (mark sid w)) as [[payload|t] w'];
    apply unmark_absent.
Qed.

Lemma own_refresh_outcome sid w :
  (exists payload, outcome (own_refresh sid) w = Returned payload) \/
  outcome (own_refresh sid) w = Threw (Redirect 302 "/auth/login").
Proof.
  unfold outcome. rewrite own_refresh_run.
  destruct (refresh_exchange (mark sid w)) as [[payload|t] w']; eauto.
Qed.

End Coordinator.

(** *** The exchange of lines 74-95 *)

Section Exchange.

Context `{Collaborators}.

Lemma refresh_exchange_absent w :
  Js.present (cookies w !! "refreshToken") = false ->
  refresh_exchange w = (Threw (ThrownError NoRefreshToken), w).
Proof.
  intros Habsent. unfold refresh_exchange, bind, cookies_get, gets.
  by rewrite Habsent.
Qed.

(** With a refresh token in the jar the endpoint is called, and the
    response decides. *)
Lemma refresh_exchange_present w :
  Js.present (cookies w !! "refreshToken") = true ->
  refresh_exchange w
  = let tok := default "" (cookies w !! "refreshToken") in
    match exchange_of tok w with
    | inl reason =>
        (Threw (ThrownError (FetchError reason)),
         resume (record (CallFetch "/auth/refresh" ("refreshToken=" +:+ tok)) w))
    | inr fetched =>
        let w1 := fetched_world tok fetched w in
        if negb (ok (response fetched)) then
          (Threw (ThrownError (RefreshFailed (status (response fetched)))), w1)
        else if negb (Js.present (cookies w1 !! "accessToken")) then
          (Threw (ThrownError NoNewAccessToken), w1)
        else
          await (ValidateAccess (default "" (cookies w1 !! "accessToken"))) w1
    end.
Proof.
  intros Hpresent. unfold refresh_exchange.
  unfold bind at 1. unfold cookies_get at 1, gets at 1.
  rewrite Hpresent. cbn [negb].
  unfold bind at 1. unfold await at 1. unfold bind at 1.
  unfold external at 1. unfold exchange_of, fetched_world.
  cbn [cookies clock record].
  destruct (fetch _ _ (cookies w) (clock w)) as [reason|fetched]; [done|].
  unfold bind, modify, ret, throw, cookies_get, gets, await.
  cbv beta iota zeta.
  destruct (ok (response fetched)); cbn [negb]; [|done].
  by match goal with
     | |- context [Js.present ?o] => destruct (Js.present o)
     end.
Qed.

(** The decision table of the [try] block. *)
Lemma refresh_exchange_outcome w :
  outcome refresh_exchange w
  = let tok := default "" (cookies w !! "refreshToken") in
    if negb (Js.present (cookies w !! "refreshToken")) then
      Threw (ThrownError NoRefreshToken)
    else
      match exchange_of tok w with
      | inl reason => Threw (ThrownError (FetchError reason))
      | inr fetched =>
          let w1 := fetched_world tok fetched w in
          if negb (ok (response fetched)) then
            Threw (ThrownError (RefreshFailed (status (response fetched))))
          else if negb (Js.present (cookies w1 !! "accessToken")) then
            Threw (ThrownError NoNewAccessToken)
          else
            outcome (ValidateAccess (default "" (cookies w1 !! "accessToken")))
              w1
      end.
Proof.
  unfold outcome.
  destruct (Js.present (cookies w !! "refreshToken")) eqn:Hp; cbn [negb].
  - rewrite (refresh_exchange_present _ Hp). cbv zeta.
    destruct (exchange_of _ w) as [reason|fetched]; [done|].
    destruct (negb (ok (response fetched))); [done|].
    destruct (negb (Js.present _)); [done|].
    unfold await. by destruct (ValidateAccess _ _).
  - by rewrite (refresh_exchange_absent _ Hp).
Qed.

(** Whatever follows, the call of the endpoint stays in the trace. *)
Lemma refresh_exchange_calls_endpoint w :
  Js.present (cookies w !! "refreshToken") = true ->
  extends
    (record (CallFetch "/auth/refresh"
               ("refreshToken=" +:+ default "" (cookies w !! "refreshToken")))
            w)
    (after refresh_exchange w).
Proof.
  intros Hp. unfold after.
  rewrite (refresh_exchange_present _ Hp). cbv zeta.
  set (tok := default "" (cookies w !! "refreshToken")).
  set (called := record (CallFetch "/auth/refresh" ("refreshToken=" +:+ tok)) w).
  destruct (exchange_of tok w) as [reason|fetched]; simpl.
  - apply extends_resume.
  - assert (extends called (fetched_world tok fetched w)) as Hf.
    { unfold fetched_world. fold called.
      eapply extends_trans; [apply extends_store_cookies|].
      apply extends_resume. }
    destruct (negb (ok (response fetched))); [done|].
    destruct (negb (Js.present _)); [done|].
    eapply extends_trans; [exact Hf|].
    apply (preserves_await extends extends_trans extends_resume).
    apply ValidateAccess_extends.
Qed.

(** An own attempt marks the session key and, with a refresh token in
    the jar, calls the endpoint next. *)
Lemma own_refresh_trace sid w :
  exists rest,
    trace (after (own_refresh sid) w) = (trace w ++ MapSet sid :: rest)%list /\
    (Js.present (cookies w !! "refreshToken") = true ->
     exists rest',
       rest = CallFetch "/auth/refresh"
                ("refreshToken=" +:+ default "" (cookies w !! "refreshToken"))
              :: rest').
Proof.
  assert (exists l,
             trace (after refresh_exchange (mark sid w))
             = (trace w ++ MapSet sid :: l)%list /\
             (Js.present (cookies w !! "refreshToken") = true ->
              exists l',
                l = CallFetch "/auth/refresh"
                      ("refreshToken=" +:+ default "" (cookies w !! "refreshToken"))
                    :: l')) as (l & Hl & Hcall).
  { destruct (Js.present (cookies w !! "refreshToken")) eqn:Hp.
    - destruct (refresh_exchange_calls_endpoint (mark sid w) Hp) as [l' El].
      exists (CallFetch "/auth/refresh"
                ("refreshToken=" +:+ default "" (cookies w !! "refreshToken"))
              :: l').
      split; [|eauto]. rewrite El. cbn [trace record mark cookies].
      by rewrite <- !app_assoc.
    - exists []. split; [|done]. unfold after.
      by rewrite (refresh_exchange_absent (mark sid w) Hp). }
  unfold after in *. rewrite own_refresh_run.
  destruct (refresh_exchange (mark sid w)) as [[payload|t] w'];
    cbn [snd trace record unmark] in *; rewrite Hl.
  - exists (l ++ [MapDelete sid])%list. split.
    + by rewrite <- app_assoc.
    + intros Hp. destruct (Hcall Hp) as [l' ->]. eauto.
  - exists (l ++ [ConsoleError t; MapDelete sid])%list. split.
    + by rewrite <- !app_assoc.
    + intros Hp. destruct (Hcall Hp) as [l' ->]. eauto.
Qed.

End Exchange.

Section CoordinatorClaims.

Context `{Collaborators}.

(** A call that returns early from the polling branch, run alone,
    leaves the table exactly as it found it: the mark it waited on is
    still there. *)
Lemma early_return_keeps_table ev sid w payload :
  alone w ->
  outcome (wait_for_other_refresh sid) w = Returned (Some payload) ->
  outcome (handleTokenRefresh ev sid) w = Returned payload /\
  refreshingStates (after (handleTokenRefresh ev sid) w) = refreshingStates w.
Proof.
  intros Hw Hearly.
  pose proof (wait_for_other_refresh_undisturbed sid w Hw) as (_ & Htable & _).
  unfold outcome, after in *. rewrite handleTokenRefresh_cases.
  destruct (wait_for_other_refresh sid w) as [o w']. simpl in *.
  by subst o.
Qed.

(** Whatever goes wrong, the caller sees claims or the login
    redirect, never an [Error]. *)
Lemma handleTokenRefresh_outcome ev sid w :
  (exists payload, outcome (handleTokenRefresh ev sid) w = Returned payload) \/
  outcome (handleTokenRefresh ev sid) w = Threw (Redirect 302 "/auth/login").
Proof.
  unfold outcome. rewrite handleTokenRefresh_cases.
  destruct (wait_for_other_refresh_returns sid w) as [early Hret].
  unfold outcome in Hret.
  destruct (wait_for_other_refresh sid w) as [o w1]. simpl in Hret. subst o.
  destruct early as [payload|]; [eauto|apply own_refresh_outcome].
Qed.

(** C1, as the code has it: a call that makes its own attempt (the
    session key was not marked on entry, or the wait ended without a
    usable token) and any call that ends by throwing leaves the session
    key absent from [refreshingStates]. *)
Theorem handleTokenRefresh_releases_own_mark ev sid w :
  refreshing sid w = false \/
  (exists t, outcome (handleTokenRefresh ev sid) w = Threw t) \/
  outcome (wait_for_other_refresh sid) w = Returned None ->
  refreshingStates (after (handleTokenRefresh ev sid) w) !! sid = None.
Proof.
  intros Hcase.
  assert (exists w', handleTokenRefresh ev sid w = own_refresh sid w')
    as [w' E].
  { rewrite handleTokenRefresh_cases.
    destruct Hcase as [Hidle | [[t Hthrew] | Hnone]].
    - rewrite (wait_for_other_refresh_idle _ _ Hidle). eauto.
    - unfold outcome in Hthrew. rewrite handleTokenRefresh_cases in Hthrew.
      destruct (wait_for_other_refresh_returns sid w) as [early Hret].
      unfold outcome in Hret.
      destruct (wait_for_other_refresh sid w) as [o w1]. simpl in Hret.
      subst o. destruct early as [payload|]; [discriminate|eauto].
    - unfold outcome in Hnone.
      destruct (wait_for_other_refresh sid w) as [o w1]. simpl in Hnone.
      subst o. eauto. }
  unfold after. rewrite E. apply own_refresh_unmarks.
Qed.

(** C2, as the code has it: called while the session key is marked,
    the call polls the mark, not the token: it sleeps 100 ms between
    one and 30 times and stops before the cap only once the mark is
    gone.  Only then is the access token now in the jar validated,
    once, and its claims are returned at once when it is valid. *)
Theorem handleTokenRefresh_polls_the_mark ev sid w :
  refreshing sid w = true ->
  let waited := after (wait_while_refreshing sid 30) w in
  exists n : nat,
    (1 <= n <= 30)%nat /\
    (refreshing sid waited = false \/ n = 30%nat) /\
    trace waited = (trace w ++ repeat (SetTimeout 100) n)%list /\
    forall payload,
      Js.present (cookies waited !! "accessToken") = true ->
      outcome (ValidateAccess (default "" (cookies waited !! "accessToken")))
        waited = Returned payload ->
      outcome (handleTokenRefresh ev sid) w = Returned payload /\
      trace (after (handleTokenRefresh ev sid) w)
      = (trace w ++ repeat (SetTimeout 100) n
           ++ [CallImportSPKI (Js.or_default env_spki "")
                 (Js.or_default env_alg "RS256");
               CallJwtVerify (default "" (cookies waited !! "accessToken"))])%list.
Proof.
  intros Hmark waited.
  destruct (wait_while_refreshing_spec sid 30 w)
    as (n & Hle & Hout & Htr & Hstop & Hone).
  fold waited in Htr, Hstop.
  exists n. split; [split; [apply Hone; [done|lia]|done]|].
  split; [destruct (decide (n = 30%nat)); [by right|left; apply Hstop; lia]|].
  split; [done|].
  intros payload Hp Hvalid.
  apply ValidateAccess_returned in Hvalid.
  assert (handleTokenRefresh ev sid w
          = (Returned payload,
             resume (checked_world
                       (default "" (cookies waited !! "accessToken")) waited)))
    as E.
  { rewrite handleTokenRefresh_cases.
    unfold wait_for_other_refresh, bind at 1, gets at 1. rewrite Hmark.
    unfold bind at 1. unfold outcome in Hout. subst waited. unfold after in *.
    destruct (wait_while_refreshing sid 30 w) as [o w1]. simpl in *.
    subst o.
    unfold use_token_after_wait, bind at 1, cookies_get, gets.
    rewrite Hp. unfold try_catch, bind, await. by rewrite Hvalid. }
  unfold outcome, after. rewrite E. split; [done|].
  cbn [snd]. by rewrite resume_trace, checked_world_trace, Htr, <- app_assoc.
Qed.

(** C6, as the code has it: a caller that finds the session key marked,
    sleeps through all 30 attempts and then has no usable access token
    does not stop at the cap.  It sets the mark itself and makes its own
    attempt as an unmarked caller does, and the session key is out of
    the table when it returns.  Without a refresh token in the jar the
    attempt calls no endpoint and ends in the login redirect; with one,
    the endpoint is called right after the mark is set, and when the
    answer is a success and the new access token is valid its claims are
    returned. *)
Theorem handleTokenRefresh_falls_through_at_cap ev sid w :
  refreshing sid w = true ->
  outcome (wait_while_refreshing sid 30) w = Returned 30 ->
  outcome use_token_after_wait (after (wait_while_refreshing sid 30) w)
    = Returned None ->
  let waited := after (wait_while_refreshing sid 30) w in
  let w2 := after use_token_after_wait waited in
  let marked := mark sid w2 in
  let tok := default "" (cookies w2 !! "refreshToken") in
  let call := handleTokenRefresh ev sid in
  trace waited = (trace w ++ repeat (SetTimeout 100) 30)%list /\
  refreshingStates marked !! sid = Some true /\
  call w
  = match refresh_exchange marked with
    | (Returned payload, w') => (Returned payload, unmark sid w')
    | (Threw t, w') =>
        (Threw (Redirect 302 "/auth/login"),
         unmark sid (record (ConsoleError t) w'))
    end /\
  refreshingStates (after call w) !! sid = None /\
  (Js.present (cookies w2 !! "refreshToken") = false ->
   outcome call w = Threw (Redirect 302 "/auth/login") /\
   trace (after call w)
   = (trace w2 ++ [MapSet sid; ConsoleError (ThrownError NoRefreshToken);
                   MapDelete sid])%list) /\
  (Js.present (cookies w2 !! "refreshToken") = true ->
   exists rest,
     trace (after call w)
     = (trace w2
        ++ MapSet sid
           :: CallFetch "/auth/refresh" ("refreshToken=" +:+ tok) :: rest)%list) /\
  (forall fetched payload,
      Js.present (cookies w2 !! "refreshToken") = true ->
      exchange_of tok marked = inr fetched ->
      ok (response fetched) = true ->
      let arrived := fetched_world tok fetched marked in
      Js.present (cookies arrived !! "accessToken") = true ->
      outcome (ValidateAccess (default "" (cookies arrived !! "accessToken")))
        arrived = Returned payload ->
      outcome call w = Returned payload).
Proof.
  intros Hmark Hcap Hnone waited w2 marked tok call.
  assert (call w = own_refresh sid w2) as E.
  { unfold call. rewrite handleTokenRefresh_cases.
    unfold wait_for_other_refresh, bind at 1, gets at 1. rewrite Hmark.
    unfold bind. subst w2 waited. unfold outcome, after in *.
    destruct (wait_while_refreshing sid 30 w) as [o w1]. simpl in *.
    subst o.
    destruct (use_token_after_wait w1) as [o w2]. simpl in *. by subst o. }
  refine (conj _ (conj _ (conj _ (conj _ (conj _ (conj _ _)))))).
  - destruct (wait_while_refreshing_spec sid 30 w)
      as (n & Hle & Hout & Htr & _).
    rewrite Hcap in Hout. injection Hout as Hn.
    replace n with 30%nat in Htr by lia. exact Htr.
  - unfold marked. cbn [refreshingStates mark record].
    apply lookup_insert_eq.
  - rewrite E. apply own_refresh_run.
  - unfold after. rewrite E. apply own_refresh_unmarks.
  - intros Habsent. unfold outcome, after. rewrite E, own_refresh_run.
    rewrite (refresh_exchange_absent (mark sid w2) Habsent).
    split; [done|]. cbn [snd trace unmark record mark].
    by rewrite <- !app_assoc.
  - intros Hpresent.
    destruct (own_refresh_trace sid w2) as (rest & Htr & Hcall).
    destruct (Hcall Hpresent) as (rest' & ->).
    exists rest'. unfold after in *. by rewrite E.
  - intros fetched payload Hpresent Hfetch Hok arrived Hnew Hvalid.
    unfold outcome. rewrite E, own_refresh_run.
    rewrite (refresh_exchange_present (mark sid w2) Hpresent). cbv zeta.
    cbn [cookies mark record]. fold tok.
    change (exchange_of tok (mark sid w2)) with (exchange_of tok marked).
    rewrite Hfetch, Hok. cbn [negb]. fold marked arrived.
    rewrite Hnew. cbn [negb]. unfold await.
    by rewrite (ValidateAccess_returned _ _ _ Hvalid).
Qed.


End CoordinatorClaims.

(** ** The resolvers *)

Section ResolverClaims.

Context `{Collaborators}.

(** [requireAuth] passes on whatever [getUserFromToken] throws. *)
Lemma requireAuth_propagates ev w t :
  outcome (getUserFromToken ev) w = Threw t ->
  outcome (requireAuth ev) w = Threw t.
Proof.
  unfold outcome, requireAuth, bind, await.
  destruct (getUserFromToken ev w) as [o w']. simpl. by intros ->.
Qed.

(** The resolver ends with claims, with [null], or with the login
    redirect of the coordinator; no [Error] escapes it. *)
Lemma getUserFromToken_outcome ev w :
  (exists user, outcome (getUserFromToken ev) w = Returned user) \/
  outcome (getUserFromToken ev) w = Threw (Redirect 302 "/auth/login").
Proof.
  assert (forall sid w',
             (exists user,
                 outcome (do payload <~ await (handleTokenRefresh ev sid);
                          ret (Some payload)) w' = Returned user) \/
             outcome (do payload <~ await (handleTokenRefresh ev sid);
                      ret (Some payload)) w'
             = Threw (Redirect 302 "/auth/login")) as Hrefresh.
  { intros sid w'. unfold outcome, bind, await.
    destruct (handleTokenRefresh_outcome ev sid w') as [[payload E]|E];
      unfold outcome in E;
      destruct (handleTokenRefresh ev sid w') as [o w1]; simpl in E; subst o;
      simpl; eauto. }
  cut (forall o,
          o = outcome (getUserFromToken ev) w ->
          (exists user, o = Returned user) \/
          o = Threw (Redirect 302 "/auth/login")); [eauto|].
  intros o. unfold outcome in *.
  unfold getUserFromToken, bind at 1, cookies_get at 1, gets at 1.
  unfold bind at 1, gets at 1.
  destruct (Js.present (cookies w !! "accessToken")).
  - unfold try_catch, bind at 1, await at 1.
    destruct (ValidateAccess _ w) as [[payload|t] w'];
      [simpl; intros ->; eauto|].
    unfold bind at 1, cookies_get at 1, gets at 1.
    destruct (Js.present _);
      [intros ->; exact (Hrefresh (session_id ev w) (resume w'))
      |simpl; intros ->; eauto].
  - unfold bind at 1, cookies_get at 1, gets at 1.
    destruct (Js.present _);
      [intros ->; exact (Hrefresh (session_id ev w) w)
      |simpl; intros ->; eauto].
Qed.

(** [isAuthenticated] always answers. *)
Lemma isAuthenticated_returns ev w :
  exists answer, outcome (isAuthenticated ev) w = Returned answer.
Proof.
  unfold outcome, isAuthenticated, try_catch, bind, await.
  destruct (getUserFromToken ev w) as [[user|t] w']; simpl; eauto.
Qed.

(** C7: a request with neither an access token nor a refresh token
    resolves to [null] without throwing, and [requireAuth] answers it
    with a 302 redirect to [/auth/login?returnUrl=] followed by the
    percent-encoded path and query string. *)
Theorem getUserFromToken_without_credentials ev w :
  Js.present (cookies w !! "accessToken") = false ->
  Js.present (cookies w !! "refreshToken") = false ->
  getUserFromToken ev w = (Returned None, w) /\
  outcome (requireAuth ev) w
  = Threw (Redirect 302
             ("/auth/login?returnUrl="
              +:+ Js.encodeURIComponent (url_pathname ev +:+ url_search ev))).
Proof.
  intros Hacc Href.
  assert (getUserFromToken ev w = (Returned None, w)) as E.
  { unfold getUserFromToken, bind, cookies_get, gets.
    by rewrite Hacc, Href. }
  split; [done|].
  unfold outcome, requireAuth, bind, await. by rewrite E.
Qed.

(** C9: when the access token is there but does not validate, and no
    refresh token is in the jar when the failure is caught, the
    validation error is dropped and the request resolves to [null]. *)
Theorem getUserFromToken_invalid_without_refresh ev w t :
  let jwt := default "" (cookies w !! "accessToken") in
  Js.present (cookies w !! "accessToken") = true ->
  outcome (ValidateAccess jwt) w = Threw t ->
  Js.present (cookies (resume (after (ValidateAccess jwt) w)) !! "refreshToken")
  = false ->
  outcome (getUserFromToken ev) w = Returned None.
Proof.
  intros jwt Hacc Hinvalid Href. subst jwt.
  unfold outcome, after in *.
  unfold getUserFromToken, bind at 1, cookies_get at 1, gets at 1.
  unfold bind at 1, gets at 1. rewrite Hacc.
  unfold try_catch, bind at 1, await at 1.
  destruct (ValidateAccess _ w) as [o w']. simpl in *. subst o.
  unfold bind, cookies_get, gets. by rewrite Href.
Qed.

(** C3, as the code has it: the access token is about to expire, a
    refresh token is in the jar, the coordinator does not return early
    from a wait, and the endpoint answers without success.  Then
    [getUserFromToken] fails with the redirect to [/auth/login] that
    [handleTokenRefresh] throws after reporting 'Refresh failed with
    status: ...' on the console, and [requireAuth] passes that redirect
    on unchanged. *)
Theorem getUserFromToken_refresh_rejected ev w fetched :
  let jwt := default "" (cookies w !! "accessToken") in
  let sid := session_id ev w in
  let caught := resume (after (ValidateAccess jwt) w) in
  let w2 := after (wait_for_other_refresh sid) caught in
  let tok := default "" (cookies w2 !! "refreshToken") in
  Js.present (cookies w !! "accessToken") = true ->
  outcome (ValidateAccess jwt) w = Threw (ThrownError TokenAboutToExpire) ->
  Js.present (cookies caught !! "refreshToken") = true ->
  outcome (wait_for_other_refresh sid) caught = Returned None ->
  Js.present (cookies w2 !! "refreshToken") = true ->
  exchange_of tok w2 = inr fetched ->
  ok (response fetched) = false ->
  outcome (getUserFromToken ev) w = Threw (Redirect 302 "/auth/login") /\
  outcome (requireAuth ev) w = Threw (Redirect 302 "/auth/login") /\
  trace (after (getUserFromToken ev) w)
  = (trace w2
     ++ [MapSet sid;
         CallFetch "/auth/refresh" ("refreshToken=" +:+ tok);
         ConsoleError
           (ThrownError (RefreshFailed (status (response fetched))));
         MapDelete sid])%list.
Proof.
  intros jwt sid caught w2 tok Hacc Hstale Href Hnone Href2 Hfetch Hok.
  assert (getUserFromToken ev w
          = (Threw (Redirect 302 "/auth/login"),
             resume
               (unmark sid
                  (record
                     (ConsoleError
                        (ThrownError
                           (RefreshFailed (status (response fetched)))))
                     (fetched_world tok fetched (mark sid w2)))))) as E.
  { unfold getUserFromToken, bind at 1, cookies_get at 1, gets at 1.
    unfold bind at 1, gets at 1. rewrite Hacc. fold sid jwt.
    unfold try_catch, bind at 1, await at 1.
    subst caught w2. unfold outcome, after in *.
    destruct (ValidateAccess jwt w) as [o w']. simpl in *. subst o.
    unfold bind at 1, cookies_get at 1, gets at 1. rewrite Href.
    unfold bind at 1, await at 1.
    rewrite handleTokenRefresh_cases.
    destruct (wait_for_other_refresh sid (resume w')) as [o w2].
    simpl in *. subst o.
    rewrite own_refresh_run.
    rewrite (refresh_exchange_present (mark sid w2) Href2). cbv zeta.
    cbn [cookies mark record]. fold tok.
    change (exchange_of tok (mark sid w2)) with (exchange_of tok w2).
    rewrite Hfetch, Hok. reflexivity. }
  split; [unfold outcome; by rewrite E|].
  split; [apply requireAuth_propagates; unfold outcome; by rewrite E|].
  unfold after at 1. rewrite E. cbn [snd].
  rewrite resume_trace. cbn [trace unmark record].
  unfold fetched_world. rewrite resume_trace.
  cbn [trace store_cookies record mark].
  by rewrite <- !app_assoc.
Qed.

End ResolverClaims.

(** ** The code at work in the concrete deployment *)

Module Runs.

Import Demo.

(** *** The validator *)

(** Why the clock must not stand before the epoch: ten seconds before
    it a token with [exp = 0] passes the verification and has
    [exp - now = 10 < 30], yet the truthiness guard of line 25 skips the
    check and the payload is returned. *)
Lemma ValidateAccess_accepts_exp_zero :
  verifies "zero" before_epoch (claims (Js.Number 0)) /\
  payload_exp (claims (Js.Number 0)) = Js.Number 0 /\
  0 - now_seconds (resume (resume before_epoch)) < EXPIRY_BUFFER /\
  outcome (ValidateAccess "zero") before_epoch
    = Returned (claims (Js.Number 0)) /\
  outcome (ValidateAccess "zero") before_epoch
    <> Threw (ThrownError TokenAboutToExpire).
Proof.
  split; [exists (ImportedKey "-----BEGIN PUBLIC KEY-----" "RS256");
          split; reflexivity|].
  split; [reflexivity|]. split; [reflexivity|].
  split; [reflexivity|discriminate].
Qed.

(** The verifier of the deployment checks the expiry as jose does. *)
Lemma demo_rejects_expired : rejects_expired.
Proof.
  intros jwt key issuer now_ms payload exp.
  cbn [jwtVerify collaborators]. unfold verify.
  destruct (decode jwt) as [decoded|]; [|done].
  destruct (payload_exp decoded) as [| |b|e|s] eqn:Hdecoded;
    try (intros [= <-] Hexp; congruence).
  destruct (Z.leb_spec e (now_ms / 1000)); [done|].
  intros [= <-] Hexp. rewrite Hdecoded in Hexp. injection Hexp as <-. lia.
Qed.


Lemma ValidateAccess_returns_payload_witness :
  verifies "good" (quiet ∅) (claims (Js.Number 2000)) /\
  payload_exp (claims (Js.Number 2000)) = Js.Number 2000 /\
  2000 - now_seconds (resume (resume (quiet ∅))) > EXPIRY_BUFFER /\
  outcome (ValidateAccess "good") (quiet ∅) = Returned (claims (Js.Number 2000)).
Proof.
  assert (verifies "good" (quiet ∅) (claims (Js.Number 2000))) as Hv
    by (exists (ImportedKey "-----BEGIN PUBLIC KEY-----" "RS256");
        split; reflexivity).
  split; [exact Hv|]. split; [reflexivity|]. split; [reflexivity|].
  apply (ValidateAccess_returns_payload "good" (quiet ∅)
           (claims (Js.Number 2000)) 2000 Hv);
    reflexivity.
Defined.

Lemma ValidateAccess_without_numeric_exp_witness :
  let payload : JWTPayload := {[ "iss" := Js.Str "auth:auth" ]} in
  verifies "timeless" (quiet ∅) payload /\
  Js.is_number (payload_exp payload) = false /\
  ValidateAccess "timeless" (quiet ∅)
    = (Returned payload, checked_world "timeless" (quiet ∅)) /\
  outcome (ValidateAccess "timeless") (quiet ∅)
    <> Threw (ThrownError TokenAboutToExpire).
Proof.
  intros payload.
  assert (verifies "timeless" (quiet ∅) payload) as Hv
    by (exists (ImportedKey "-----BEGIN PUBLIC KEY-----" "RS256");
        split; reflexivity).
  split; [exact Hv|]. split; [reflexivity|].
  apply (ValidateAccess_without_numeric_exp "timeless" (quiet ∅) payload Hv).
  reflexivity.
Defined.

(** *** The coordinator *)

(** C1 refuted as stated: another request holds the mark and keeps it;
    the caller sleeps through its 30 attempts, finds the stored access
    token valid and returns its claims from the polling branch; the
    session key is still in the table. *)
Lemma early_return_leaves_mark :
  let w := contended {[ "accessToken" := "good" ]} in
  let call := handleTokenRefresh event "default" in
  outcome call w = Returned (claims (Js.Number 2000)) /\
  refreshingStates (after call w) !! "default" = Some true /\
  refreshingStates (after call w) !! "default" <> None.
Proof. vm_compute. split; [reflexivity|]. split; [reflexivity|discriminate]. Qed.

Lemma handleTokenRefresh_releases_own_mark_witness :
  let w := quiet {[ "refreshToken" := "r1" ]} in
  refreshing "default" w = false /\
  refreshingStates (after (handleTokenRefresh event "default") w) !! "default"
  = None.
Proof.
  intros w. split; [reflexivity|].
  apply (handleTokenRefresh_releases_own_mark event "default" w).
  left. reflexivity.
Defined.

(** C2 refuted as stated: a valid access token is in the jar from the
    start, yet the caller sleeps all 30 times, because the mark stays,
    and runs the validator once, after the wait. *)
Lemma valid_token_does_not_end_the_wait :
  let w := contended {[ "accessToken" := "good" ]} in
  let t := trace (after (handleTokenRefresh event "default") w) in
  refreshing "default" w = true /\
  outcome (ValidateAccess "good") w = Returned (claims (Js.Number 2000)) /\
  sleeps t = 30%nat /\
  validations t = 1%nat /\
  clock (after (handleTokenRefresh event "default") w) = clock w + 3000 /\
  ~ (sleeps t <= 1)%nat /\
  ~ (sleeps t <= validations t)%nat.
Proof.
  vm_compute.
  repeat (split; [reflexivity|]). split; lia.
Qed.

Lemma handleTokenRefresh_polls_the_mark_witness :
  let w := released {[ "accessToken" := "good" ]} in
  let waited := after (wait_while_refreshing "default" 30) w in
  refreshing "default" w = true /\
  exists n : nat,
    (1 <= n <= 30)%nat /\
    (refreshing "default" waited = false \/ n = 30%nat) /\
    trace waited = (trace w ++ repeat (SetTimeout 100) n)%list /\
    forall payload,
      Js.present (cookies waited !! "accessToken") = true ->
      outcome (ValidateAccess (default "" (cookies waited !! "accessToken")))
        waited = Returned payload ->
      outcome (handleTokenRefresh event "default") w = Returned payload /\
      trace (after (handleTokenRefresh event "default") w)
      = (trace w ++ repeat (SetTimeout 100) n
           ++ [CallImportSPKI (Js.or_default env_spki "")
                 (Js.or_default env_alg "RS256");
               CallJwtVerify (default "" (cookies waited !! "accessToken"))])%list.
Proof.
  intros w waited. split; [reflexivity|].
  apply (handleTokenRefresh_polls_the_mark event "default" w).
  reflexivity.
Defined.

(** The run behind that witness: the mark goes during the third sleep,
    and the stored token is then validated and returned. *)
Example released_after_three_sleeps :
  let w := released {[ "accessToken" := "good" ]} in
  outcome (handleTokenRefresh event "default") w
    = Returned (claims (Js.Number 2000)) /\
  trace (after (handleTokenRefresh event "default") w)
    = [SetTimeout 100; SetTimeout 100; SetTimeout 100;
       CallImportSPKI "-----BEGIN PUBLIC KEY-----" "RS256";
       CallJwtVerify "good"].
Proof. vm_compute. split; reflexivity. Qed.



Lemma handleTokenRefresh_falls_through_at_cap_witness :
  let w := contended {[ "accessToken" := "stale"; "refreshToken" := "r1" ]} in
  let waited := after (wait_while_refreshing "default" 30) w in
  let w2 := after use_token_after_wait waited in
  let call := handleTokenRefresh event "default" in
  refreshing "default" w = true /\
  outcome (wait_while_refreshing "default" 30) w = Returned 30 /\
  outcome use_token_after_wait waited = Returned None /\
  trace waited = (trace w ++ repeat (SetTimeout 100) 30)%list /\
  refreshingStates (mark "default" w2) !! "default" = Some true /\
  refreshingStates (after call w) !! "default" = None /\
  outcome call w = Returned (claims (Js.Number 2000)) /\
  exists rest,
    trace (after call w)
    = (trace w2
       ++ MapSet "default"
          :: CallFetch "/auth/refresh" "refreshToken=r1" :: rest)%list.
Proof.
  intros w waited w2 call.
  assert (refreshing "default" w = true) as Hmark
    by (vm_compute; reflexivity).
  assert (outcome (wait_while_refreshing "default" 30) w = Returned 30) as Hcap
    by (vm_compute; reflexivity).
  assert (outcome use_token_after_wait waited = Returned None) as Hnone
    by (vm_compute; reflexivity).
  split; [exact Hmark|]. split; [exact Hcap|]. split; [exact Hnone|].
  destruct (handleTokenRefresh_falls_through_at_cap event "default" w
              Hmark Hcap Hnone)
    as (Hslept & Hmarked & _ & Hgone & _ & Hcalled & Hclaims).
  split; [exact Hslept|]. split; [exact Hmarked|]. split; [exact Hgone|].
  split.
  - apply (Hclaims (mkFetched (mkResponse true 200) [("accessToken", "good")])
             (claims (Js.Number 2000)));
      vm_compute; reflexivity.
  - destruct Hcalled as (rest & Hrest); [vm_compute; reflexivity|].
    exists rest. vm_compute in Hrest. vm_compute. exact Hrest.
Defined.

(** C6 refuted as stated: the caller has slept through all 30 attempts,
    the stored access token is about to expire, and there is no refresh
    token.  The call ends in the login redirect and the refresh endpoint
    is never called. *)
Lemma timed_out_caller_without_refresh_token :
  let w := contended {[ "accessToken" := "stale" ]} in
  let waited := after (wait_while_refreshing "default" 30) w in
  let call := handleTokenRefresh event "default" in
  let t := trace (after call w) in
  refreshing "default" w = true /\
  outcome (wait_while_refreshing "default" 30) w = Returned 30 /\
  outcome use_token_after_wait waited = Returned None /\
  outcome call w = Threw (Redirect 302 "/auth/login") /\
  exchanges t = 0%nat /\
  ~ (1 <= exchanges t)%nat /\
  ~ (exists payload, outcome call w = Returned payload).
Proof.
  vm_compute. repeat (split; [reflexivity|]).
  split; [lia|]. intros [payload Hp]. discriminate Hp.
Qed.

(** The run behind that witness: after the cap the caller's own
    exchange succeeds and its claims are returned. *)
Example own_exchange_after_cap :
  let w := contended {[ "accessToken" := "stale"; "refreshToken" := "r1" ]} in
  let t := trace (after (handleTokenRefresh event "default") w) in
  outcome (handleTokenRefresh event "default") w
    = Returned (claims (Js.Number 2000)) /\
  sleeps t = 30%nat /\ exchanges t = 1%nat /\
  refreshingStates (after (handleTokenRefresh event "default") w) !! "default"
    = None.
Proof. vm_compute. repeat split; reflexivity. Qed.

(** *** The resolvers *)

(** C3 refuted as stated: the access token is about to expire and the
    endpoint answers 401; [getUserFromToken] does not fail with
    'Refresh failed with status: 401' but with the login redirect. *)
Lemma rejected_refresh_is_a_redirect :
  let w := quiet {[ "accessToken" := "stale"; "refreshToken" := "r2" ]} in
  outcome (ValidateAccess "stale") w = Threw (ThrownError TokenAboutToExpire) /\
  exchange_of "r2" w = inr (mkFetched (mkResponse false 401) []) /\
  outcome (getUserFromToken event) w = Threw (Redirect 302 "/auth/login") /\
  forall st,
    outcome (getUserFromToken event) w <> Threw (ThrownError (RefreshFailed st)).
Proof.
  vm_compute. repeat (split; [reflexivity|]). intros st. discriminate.
Qed.

Lemma getUserFromToken_refresh_rejected_witness :
  let w := quiet {[ "accessToken" := "stale"; "refreshToken" := "r2" ]} in
  outcome (getUserFromToken event) w = Threw (Redirect 302 "/auth/login") /\
  outcome (requireAuth event) w = Threw (Redirect 302 "/auth/login") /\
  trace (after (getUserFromToken event) w)
  = [CallImportSPKI "-----BEGIN PUBLIC KEY-----" "RS256";
     CallJwtVerify "stale";
     MapSet "default";
     CallFetch "/auth/refresh" "refreshToken=r2";
     ConsoleError (ThrownError (RefreshFailed 401));
     MapDelete "default"].
Proof.
  intros w.
  pose proof (getUserFromToken_refresh_rejected event w
                (mkFetched (mkResponse false 401) [])) as P.
  cbv zeta in P.
  repeat match type of P with
         | ?A -> _ =>
             let h := fresh in
             assert (h : A) by reflexivity; specialize (P h); clear h
         end.
  vm_compute in P. vm_compute. exact P.
Defined.

Lemma getUserFromToken_without_credentials_witness :
  Js.present (cookies (quiet ∅) !! "accessToken") = false /\
  Js.present (cookies (quiet ∅) !! "refreshToken") = false /\
  getUserFromToken event (quiet ∅) = (Returned None, quiet ∅) /\
  outcome (requireAuth event) (quiet ∅)
  = Threw (Redirect 302 "/auth/login?returnUrl=%2Fdashboard%3Ftab%3Da%20b").
Proof.
  split; [reflexivity|]. split; [reflexivity|].
  apply (getUserFromToken_without_credentials event (quiet ∅)); reflexivity.
Defined.

Lemma getUserFromToken_invalid_without_refresh_witness :
  let w := quiet {[ "accessToken" := "stale" ]} in
  Js.present (cookies w !! "accessToken") = true /\
  outcome (ValidateAccess "stale") w = Threw (ThrownError TokenAboutToExpire) /\
  Js.present (cookies (resume (after (ValidateAccess "stale") w)) !! "refreshToken")
  = false /\
  outcome (getUserFromToken event) w = Returned None.
Proof.
  intros w.
  split; [reflexivity|]. split; [reflexivity|]. split; [reflexivity|].
  apply (getUserFromToken_invalid_without_refresh event w
           (ThrownError TokenAboutToExpire));
    reflexivity.
Defined.

End Runs.

(** ** More on the credential validator *)

Section ValidatorMore.

Context `{Collaborators}.

Lemma untouched_refl w : untouched w w.
Proof. by intros Hw. Qed.

Lemma untouched_trans w1 w2 w3 :
  untouched w1 w2 -> untouched w2 w3 -> untouched w1 w3.
Proof.
  intros H12 H23 Hw1.
  destruct (H12 Hw1) as (Hw2 & Ht & Hc & Hk).
  destruct (H23 Hw2) as (Hw3 & Ht' & Hc' & Hk').
  repeat split; [done|congruence|congruence|congruence].
Qed.

Lemma untouched_resume w : untouched w (resume w).
Proof. intros Hw. by rewrite (resume_alone _ Hw). Qed.

Lemma untouched_record e w : untouched w (record e w).
Proof. by intros Hw. Qed.

(** Where a validation leaves the world: after the key import alone when
    that is rejected, after both awaits otherwise. *)
Lemma ValidateAccess_world jwt w :
  let spki := Js.or_default env_spki "" in
  let alg := Js.or_default env_alg "RS256" in
  (after (ValidateAccess jwt) w = checked_world jwt w /\
   exists key, importSPKI spki alg = inr key) \/
  (after (ValidateAccess jwt) w = resume (record (CallImportSPKI spki alg) w) /\
   exists reason, importSPKI spki alg = inl reason).
Proof.
  intros spki alg. unfold after, ValidateAccess. fold spki alg.
  unfold bind at 1. unfold await at 1. unfold external at 1.
  destruct (importSPKI spki alg) as [reason|key] eqn:Hkey.
  { right. split; [done|eauto]. }
  left. split; [|eauto].
  unfold bind at 1. unfold await at 1. unfold external at 1.
  unfold checked_world. fold spki alg.
  destruct (jwtVerify jwt key "auth:auth" _) as [reason|payload]; [done|].
  pose proof (expiry_check_world payload
                (resume (record (CallJwtVerify jwt)
                           (resume (record (CallImportSPKI spki alg) w)))))
    as Hsame.
  unfold after, bind in *.
  destruct (expiry_check payload _) as [[[]|t] w']; simpl in *; by subst.
Qed.

(** X1: The 30 second buffer is inclusive on the accepting side: a verified
    token with a non-zero numeric [exp] is accepted exactly when
    [exp - now >= 30], where [now] is the clock rounded down to whole
    seconds.  In milliseconds of the clock itself: an accepted token has
    more than 29000 ms left, and a token with at least 30000 ms left is
    accepted. *)
Theorem ValidateAccess_accepts_from_buffer_on jwt w payload exp :
  verifies jwt w payload ->
  payload_exp payload = Js.Number exp ->
  exp <> 0 ->
  (outcome (ValidateAccess jwt) w = Returned payload <->
   EXPIRY_BUFFER <= exp - now_seconds (resume (resume w))) /\
  (outcome (ValidateAccess jwt) w = Returned payload ->
   29000 < 1000 * exp - clock (resume (resume w))) /\
  (30000 <= 1000 * exp - clock (resume (resume w)) ->
   outcome (ValidateAccess jwt) w = Returned payload).
Proof.
  intros Hv Hexp Hnz.
  assert (outcome (ValidateAccess jwt) w = Returned payload <->
          EXPIRY_BUFFER <= exp - now_seconds (resume (resume w))) as Hsec.
  { unfold outcome.
    rewrite (ValidateAccess_verified _ _ _ Hv).
    unfold expiry_check. rewrite Hexp. cbv zeta.
    cbn [Js.truthy Js.is_number Js.number_of].
    destruct (Z.eqb_spec exp 0); [done|]. cbn [negb andb].
    unfold bind, gets.
    unfold now_seconds in *. rewrite checked_world_clock.
    destruct (Z.ltb_spec (exp - clock (resume (resume w)) / 1000) EXPIRY_BUFFER);
      simpl; split; try done; try lia. }
  pose proof (Z.div_mod (clock (resume (resume w))) 1000 ltac:(lia)) as Hdm.
  pose proof (Z.mod_pos_bound (clock (resume (resume w))) 1000 ltac:(lia)).
  split; [exact Hsec|].
  split; rewrite Hsec; unfold EXPIRY_BUFFER, now_seconds; lia.
Qed.

(** X2: A rejected key import ends the validation with jose's error; the
    signature verification is not called. *)
Theorem ValidateAccess_key_import_rejected jwt w reason :
  let spki := Js.or_default env_spki "" in
  let alg := Js.or_default env_alg "RS256" in
  importSPKI spki alg = inl reason ->
  outcome (ValidateAccess jwt) w = Threw (ThrownError (JoseError reason)) /\
  trace (after (ValidateAccess jwt) w)
  = (trace w ++ [CallImportSPKI spki alg])%list.
Proof.
  intros spki alg Hrej.
  unfold outcome, after, ValidateAccess. fold spki alg.
  unfold bind, await, external. rewrite Hrej. cbn [fst snd].
  split; [done|]. by rewrite resume_trace.
Qed.

(** X3: A rejection of the signature verification (bad signature, wrong
    issuer, expired) is passed on as it is; the expiry buffer plays no
    part. *)
Theorem ValidateAccess_verification_rejected jwt w key reason :
  importSPKI (Js.or_default env_spki "") (Js.or_default env_alg "RS256")
  = inr key ->
  jwtVerify jwt key "auth:auth" (clock (resume w)) = inl reason ->
  outcome (ValidateAccess jwt) w = Threw (ThrownError (JoseError reason)).
Proof.
  intros Hkey Hrej. unfold outcome, ValidateAccess.
  unfold bind at 1. unfold await at 1. unfold external at 1.
  rewrite Hkey.
  unfold bind at 1. unfold await at 1. unfold external at 1.
  by rewrite record_clock, resume_record, record_clock, Hrej.
Qed.

(** X4: Run alone, a validation changes neither the table nor the jar nor
    the clock; all it leaves behind is the record of its one or two
    calls to jose. *)
Theorem ValidateAccess_leaves_store jwt w :
  alone w ->
  let w' := after (ValidateAccess jwt) w in
  let spki := Js.or_default env_spki "" in
  let alg := Js.or_default env_alg "RS256" in
  refreshingStates w' = refreshingStates w /\
  cookies w' = cookies w /\
  clock w' = clock w /\
  (trace w' = (trace w ++ [CallImportSPKI spki alg])%list \/
   trace w' = (trace w ++ [CallImportSPKI spki alg; CallJwtVerify jwt])%list).
Proof.
  intros Hw w' spki alg.
  assert (untouched w w') as Hsame.
  { apply preserves_ValidateAccess;
      [apply untouched_refl | apply untouched_trans | apply untouched_resume
      | apply untouched_record]. }
  destruct (Hsame Hw) as (_ & Ht & Hc & Hk).
  split; [done|]. split; [done|]. split; [done|].
  subst w'.
  destruct (ValidateAccess_world jwt w) as [[E _]|[E _]]; rewrite E.
  - right. apply checked_world_trace.
  - left. by rewrite resume_trace.
Qed.

End ValidatorMore.

(** ** More on the refresh coordinator *)

Section CoordinatorMore.

Context `{Collaborators}.

(** *** The table, when the call runs alone *)

Lemma table_kept_refl w : table_kept w w.
Proof. by intros Hw. Qed.

Lemma table_kept_trans w1 w2 w3 :
  table_kept w1 w2 -> table_kept w2 w3 -> table_kept w1 w3.
Proof.
  intros H12 H23 Hw1.
  destruct (H12 Hw1) as (Hw2 & Ht).
  destruct (H23 Hw2) as (Hw3 & Ht').
  split; [done|congruence].
Qed.

Lemma table_kept_resume w : table_kept w (resume w).
Proof. intros Hw. by rewrite (resume_alone _ Hw). Qed.

Lemma table_kept_record e w : table_kept w (record e w).
Proof. by intros Hw. Qed.

Lemma table_kept_advance ms w : table_kept w (advance ms w).
Proof. by intros Hw. Qed.

Lemma table_kept_store_cookies l w : table_kept w (store_cookies l w).
Proof. by intros Hw. Qed.

Lemma ValidateAccess_table_kept jwt : preserves table_kept (ValidateAccess jwt).
Proof.
  apply preserves_ValidateAccess;
    [apply table_kept_refl | apply table_kept_trans | apply table_kept_resume
    | apply table_kept_record].
Qed.

Lemma wait_for_other_refresh_table_kept sid :
  preserves table_kept (wait_for_other_refresh sid).
Proof.
  apply preserves_wait_for_other_refresh;
    [apply table_kept_refl | apply table_kept_trans | apply table_kept_resume
    | apply table_kept_record | apply table_kept_advance].
Qed.

Lemma refresh_exchange_table_kept : preserves table_kept refresh_exchange.
Proof.
  intros w. unfold after.
  destruct (Js.present (cookies w !! "refreshToken")) eqn:Hp.
  - rewrite (refresh_exchange_present _ Hp). cbv zeta.
    set (tok := default "" (cookies w !! "refreshToken")).
    set (called := record (CallFetch "/auth/refresh" ("refreshToken=" +:+ tok)) w).
    assert (table_kept w called) as Hcalled by apply table_kept_record.
    destruct (exchange_of tok w) as [reason|fetched]; simpl.
    + eapply table_kept_trans; [exact Hcalled|apply table_kept_resume].
    + assert (table_kept w (fetched_world tok fetched w)) as Hf.
      { unfold fetched_world. fold called.
        eapply table_kept_trans; [exact Hcalled|].
        eapply table_kept_trans; [apply table_kept_store_cookies|].
        apply table_kept_resume. }
      destruct (negb (ok (response fetched))); [done|].
      destruct (negb (Js.present _)); [done|].
      eapply table_kept_trans; [exact Hf|].
      apply (preserves_await table_kept table_kept_trans table_kept_resume).
      apply ValidateAccess_table_kept.
  - rewrite (refresh_exchange_absent _ Hp). apply table_kept_refl.
Qed.

(** An own attempt, run alone, takes the session key out of the table
    and changes nothing else in it. *)
Lemma own_refresh_table sid w :
  alone w ->
  alone (after (own_refresh sid) w) /\
  refreshingStates (after (own_refresh sid) w)
  = delete sid (refreshingStates w).
Proof.
  intros Hw.
  assert (alone (mark sid w)) as Hm by done.
  destruct (refresh_exchange_table_kept (mark sid w) Hm) as (Hw' & Ht).
  unfold after in *. rewrite own_refresh_run.
  destruct (refresh_exchange (mark sid w)) as [[payload|t] w'];
    cbn [snd] in *; (split; [done|]);
    cbn [refreshingStates unmark record]; rewrite Ht;
    cbn [refreshingStates mark record]; apply delete_insert_eq.
Qed.

(** X5: Run alone, a call changes the table in one way only: a call that
    makes its own attempt deletes its session key, whoever had set it,
    and a call that returns early from the wait changes nothing.  The
    entries of other session keys stay as they are. *)
Theorem handleTokenRefresh_table_alone ev sid w :
  alone w ->
  refreshingStates (after (handleTokenRefresh ev sid) w)
  = match outcome (wait_for_other_refresh sid) w with
    | Returned (Some _) => refreshingStates w
    | _ => delete sid (refreshingStates w)
    end /\
  forall other,
    other <> sid ->
    refreshingStates (after (handleTokenRefresh ev sid) w) !! other
    = refreshingStates w !! other.
Proof.
  intros Hw.
  assert (refreshingStates (after (handleTokenRefresh ev sid) w)
          = match outcome (wait_for_other_refresh sid) w with
            | Returned (Some _) => refreshingStates w
            | _ => delete sid (refreshingStates w)
            end) as E.
  { destruct (wait_for_other_refresh_table_kept sid w Hw) as (Hw1 & Ht).
    destruct (wait_for_other_refresh_returns sid w) as [early Hret].
    unfold outcome, after in *. rewrite handleTokenRefresh_cases.
    destruct (wait_for_other_refresh sid w) as [o w1]. cbn [fst snd] in *.
    subst o. destruct early as [payload|]; [done|].
    destruct (own_refresh_table sid w1 Hw1) as (_ & Hown).
    unfold after in Hown. by rewrite Hown, Ht. }
  split; [exact E|].
  intros other Hother. rewrite E.
  destruct (outcome (wait_for_other_refresh sid) w) as [[payload|]|t];
    [done| |]; by apply lookup_delete_ne.
Qed.

(** *** The wait, when the call runs alone *)

Lemma wait_while_refreshing_alone sid remaining w :
  alone w ->
  refreshing sid w = true ->
  let waited := after (wait_while_refreshing sid remaining) w in
  outcome (wait_while_refreshing sid remaining) w = Returned 30 /\
  alone waited /\
  refreshing sid waited = true /\
  clock waited = clock w + 100 * Z.of_nat remaining /\
  cookies waited = cookies w.
Proof.
  revert w. induction remaining as [|remaining IH]; intros w Hw Hmark.
  - unfold outcome, after. simpl. repeat split; try done. lia.
  - unfold outcome, after in *. cbn [wait_while_refreshing].
    rewrite Hmark, sleep_then.
    assert (resume (record (SetTimeout 100) (advance 100 w))
            = record (SetTimeout 100) (advance 100 w)) as E
      by (by apply resume_alone).
    rewrite E.
    destruct (IH (record (SetTimeout 100) (advance 100 w)))
      as (Hout & Halone & Hstill & Hclock & Hjar); [done|done|].
    cbv zeta. split; [done|]. split; [done|]. split; [done|].
    split; [|done]. rewrite Hclock. cbn [clock record advance]. lia.
Qed.

(** X6: With nobody there to release the mark, a caller that finds its
    session key marked waits out the whole cap: 30 attempts, 3000 ms,
    with the mark still there at the end. *)
Theorem handleTokenRefresh_waits_out_the_cap sid w :
  alone w ->
  refreshing sid w = true ->
  let waited := after (wait_while_refreshing sid 30) w in
  outcome (wait_while_refreshing sid 30) w = Returned 30 /\
  clock waited = clock w + 3000 /\
  refreshing sid waited = true /\
  trace waited = (trace w ++ repeat (SetTimeout 100) 30)%list.
Proof.
  intros Hw Hmark waited.
  destruct (wait_while_refreshing_alone sid 30 w Hw Hmark)
    as (Hout & _ & Hstill & Hclock & _).
  fold waited in Hstill, Hclock.
  split; [done|]. split; [rewrite Hclock; lia|]. split; [done|].
  destruct (wait_while_refreshing_spec sid 30 w)
    as (n & Hle & Hout' & Htr & _).
  rewrite Hout in Hout'. injection Hout' as Hn.
  replace n with 30%nat in Htr by lia. exact Htr.
Qed.

(** *** The wait, attempt by attempt *)

Lemma napped_succ n w : napped n (nap w) = napped (S n) w.
Proof. unfold napped. symmetry. apply Nat.iter_succ_r. Qed.

Lemma wait_while_refreshing_exact sid remaining k w :
  (k <= remaining)%nat ->
  (forall i, (i < k)%nat -> refreshing sid (napped i w) = true) ->
  ((k < remaining)%nat -> refreshing sid (napped k w) = false) ->
  wait_while_refreshing sid remaining w
  = (Returned (30 - Z.of_nat remaining + Z.of_nat k), napped k w).
Proof.
  revert k w. induction remaining as [|remaining IH]; intros k w Hle Hheld Hgone.
  - assert (k = O) as -> by lia. reflexivity.
  - cbn [wait_while_refreshing]. destruct k as [|k].
    + rewrite (Hgone ltac:(lia) : refreshing sid w = false).
      cbn [napped Nat.iter]. do 2 f_equal. lia.
    + rewrite (Hheld O ltac:(lia) : refreshing sid w = true).
      rewrite sleep_then. fold (nap w).
      rewrite (IH k (nap w)).
      * rewrite napped_succ. do 2 f_equal. lia.
      * lia.
      * intros i Hi. rewrite napped_succ. apply Hheld. lia.
      * intros Hk. rewrite napped_succ. apply Hgone. lia.
Qed.

(** X19: the polling loop leaves at the first check that finds the mark
    gone: if the mark is still set after each of the first [k - 1]
    sleeps and gone after the [k]-th (or [k] is the cap of 30), the loop
    sleeps exactly [k] times and counts [k] attempts. *)
Theorem handleTokenRefresh_wait_ends_at_release sid k w :
  (k <= 30)%nat ->
  (forall i, (i < k)%nat -> refreshing sid (napped i w) = true) ->
  ((k < 30)%nat -> refreshing sid (napped k w) = false) ->
  wait_while_refreshing sid 30 w = (Returned (Z.of_nat k), napped k w) /\
  trace (napped k w) = (trace w ++ repeat (SetTimeout 100) k)%list.
Proof.
  intros Hle Hheld Hgone.
  pose proof (wait_while_refreshing_exact sid 30 k w Hle Hheld Hgone) as E.
  split.
  - rewrite E. do 2 f_equal; lia.
  - destruct (wait_while_refreshing_spec sid 30 w)
      as (n & _ & Hout & Htr & _).
    unfold outcome, after in *. rewrite E in Hout, Htr. cbn [fst snd] in *.
    injection Hout as Hn. replace n with k in Htr by lia. exact Htr.
Qed.

End CoordinatorMore.

(** ** Counting what a call does *)

Section Effort.

Context `{Collaborators}.

Lemma count_app p (l1 l2 : list Event) :
  count p (l1 ++ l2) = (count p l1 + count p l2)%nat.
Proof.
  induction l1 as [|e l1 IH]; simpl; [done|].
  rewrite IH. by destruct (p e).
Qed.

Lemma count_repeat p e n :
  count p (repeat e n) = if p e then n else O.
Proof.
  induction n as [|n IH]; simpl; [by destruct (p e)|].
  rewrite IH. by destruct (p e).
Qed.

Lemma within_adds l w w' :
  trace w' = (trace w ++ l)%list ->
  within (sleeps l) (exchanges l) (validations l) w w'.
Proof.
  intros E. unfold within, sleeps, exchanges, validations.
  rewrite E, !count_app. lia.
Qed.

Lemma within_same w w' : trace w' = trace w -> within 0 0 0 w w'.
Proof. intros E. unfold within. rewrite E. lia. Qed.

Lemma within_trans s1 f1 v1 s2 f2 v2 w1 w2 w3 :
  within s1 f1 v1 w1 w2 -> within s2 f2 v2 w2 w3 ->
  within (s1 + s2) (f1 + f2) (v1 + v2) w1 w3.
Proof. unfold within. lia. Qed.

Lemma within_weaken s f v s' f' v' w w' :
  within s f v w w' ->
  (s <= s')%nat -> (f <= f')%nat -> (v <= v')%nat ->
  within s' f' v' w w'.
Proof. unfold within. lia. Qed.

Lemma after_await {A} (m : M A) w : after (await m) w = resume (after m w).
Proof. unfold after, await. by destruct (m w). Qed.

Lemma ValidateAccess_within jwt w :
  within 0 0 1 w (after (ValidateAccess jwt) w).
Proof.
  destruct (ValidateAccess_world jwt w) as [[E _]|[E _]]; rewrite E.
  - apply (within_adds _ _ _ (checked_world_trace jwt w)).
  - eapply within_weaken; [apply within_adds; by rewrite resume_trace|..];
      unfold sleeps, exchanges, validations; simpl; lia.
Qed.

Lemma awaited_ValidateAccess_within jwt w :
  within 0 0 1 w (after (await (ValidateAccess jwt)) w).
Proof.
  rewrite after_await.
  apply (within_trans 0 0 1 0 0 0 _ _ _ (ValidateAccess_within jwt w)).
  apply within_same, resume_trace.
Qed.

Lemma wait_while_refreshing_within sid w :
  within 30 0 0 w (after (wait_while_refreshing sid 30) w).
Proof.
  destruct (wait_while_refreshing_spec sid 30 w) as (n & Hle & _ & Htr & _).
  eapply within_weaken; [apply (within_adds _ _ _ Htr)|..];
    unfold sleeps, exchanges, validations; rewrite count_repeat; simpl; lia.
Qed.

Lemma use_token_after_wait_within w :
  within 0 0 1 w (after use_token_after_wait w).
Proof.
  unfold after, use_token_after_wait, bind at 1, cookies_get, gets.
  destruct (Js.present (cookies w !! "accessToken")).
  - pose proof (awaited_ValidateAccess_within
                  (default "" (cookies w !! "accessToken")) w) as Hv.
    unfold after, try_catch, bind in *.
    by destruct (await (ValidateAccess _) w) as [[payload|t] w'].
  - eapply within_weaken; [by apply within_same|lia..].
Qed.

Lemma wait_for_other_refresh_within sid w :
  within 30 0 1 w (after (wait_for_other_refresh sid) w) /\
  (refreshing sid w = false -> after (wait_for_other_refresh sid) w = w).
Proof.
  split.
  - unfold after, wait_for_other_refresh, bind at 1, gets.
    destruct (refreshing sid w).
    + pose proof (wait_while_refreshing_within sid w) as Hwait.
      unfold after, bind in *.
      destruct (wait_while_refreshing_returns sid 30 w) as [attempts Hret].
      unfold outcome in Hret.
      destruct (wait_while_refreshing sid 30 w) as [o w1]. cbn [fst snd] in *.
      subst o.
      apply (within_trans 30 0 0 0 0 1 _ _ _ Hwait).
      apply use_token_after_wait_within.
    + eapply within_weaken; [by apply within_same|lia..].
  - intros Hidle. unfold after. by rewrite wait_for_other_refresh_idle.
Qed.

Lemma refresh_exchange_within w :
  within 0 1 1 w (after refresh_exchange w).
Proof.
  unfold after.
  destruct (Js.present (cookies w !! "refreshToken")) eqn:Hp.
  - rewrite (refresh_exchange_present _ Hp). cbv zeta.
    set (tok := default "" (cookies w !! "refreshToken")).
    assert (forall w', trace w' = (trace w ++ [CallFetch "/auth/refresh"
                                                 ("refreshToken=" +:+ tok)])%list ->
                       within 0 1 0 w w') as Hcalled.
    { intros w' E. apply (within_adds _ _ _ E). }
    destruct (exchange_of tok w) as [reason|fetched]; cbn [snd].
    + eapply within_weaken; [apply Hcalled; by rewrite resume_trace|lia..].
    + assert (within 0 1 0 w (fetched_world tok fetched w)) as Hf.
      { apply Hcalled. unfold fetched_world. by rewrite resume_trace. }
      destruct (negb (ok (response fetched)));
        [eapply within_weaken; [exact Hf|lia..]|].
      destruct (negb (Js.present _));
        [eapply within_weaken; [exact Hf|lia..]|].
      apply (within_trans 0 1 0 0 0 1 _ _ _ Hf).
      apply awaited_ValidateAccess_within.
  - rewrite (refresh_exchange_absent _ Hp).
    eapply within_weaken; [by apply within_same|lia..].
Qed.

Lemma own_refresh_within sid w :
  within 0 1 1 w (after (own_refresh sid) w).
Proof.
  pose proof (refresh_exchange_within (mark sid w)) as Hx.
  assert (within 0 0 0 w (mark sid w)) as Hm
    by (apply (within_adds [MapSet sid]); done).
  unfold after in *. rewrite own_refresh_run.
  destruct (refresh_exchange (mark sid w)) as [[payload|t] w']; cbn [snd] in *.
  - apply (within_trans 0 0 0 0 1 1 _ _ _ Hm).
    apply (within_trans 0 1 1 0 0 0 _ _ _ Hx).
    apply (within_adds [MapDelete sid]). done.
  - apply (within_trans 0 0 0 0 1 1 _ _ _ Hm).
    apply (within_trans 0 1 1 0 0 0 _ _ _ Hx).
    apply (within_adds [ConsoleError t; MapDelete sid]).
    cbn [trace unmark record]. by rewrite <- app_assoc.
Qed.

(** X7: One call to the coordinator sleeps at most 30 times, calls the
    refresh endpoint at most once and verifies at most two signatures;
    a caller whose session key is not marked does not sleep at all and
    verifies at most one, whatever other keys are marked. *)
Theorem handleTokenRefresh_effort ev sid w :
  within 30 1 2 w (after (handleTokenRefresh ev sid) w) /\
  (refreshing sid w = false ->
   within 0 1 1 w (after (handleTokenRefresh ev sid) w)).
Proof.
  destruct (wait_for_other_refresh_within sid w) as (Hwait & Hidle).
  destruct (wait_for_other_refresh_returns sid w) as [early Hret].
  unfold outcome, after in *. rewrite handleTokenRefresh_cases.
  destruct (wait_for_other_refresh sid w) as [o w1]. cbn [fst snd] in *.
  subst o. destruct early as [payload|].
  - split.
    + eapply within_weaken; [exact Hwait|lia..].
    + intros Hi. rewrite (Hidle Hi).
      eapply within_weaken; [by apply within_same|lia..].
  - split.
    + apply (within_trans 30 0 1 0 1 1 _ _ _ Hwait), own_refresh_within.
    + intros Hi. rewrite (Hidle Hi). apply own_refresh_within.
Qed.

End Effort.

(** ** More on the coordinator's own attempt *)

Section AttemptMore.

Context `{Collaborators}.

(** The run of a call that finds its session key unmarked and whose
    exchange brings a valid access token. *)
Lemma handleTokenRefresh_idle_success ev sid w fetched payload :
  let tok := default "" (cookies w !! "refreshToken") in
  let arrived := fetched_world tok fetched (mark sid w) in
  let newAccessToken := default "" (cookies arrived !! "accessToken") in
  refreshing sid w = false ->
  Js.present (cookies w !! "refreshToken") = true ->
  exchange_of tok w = inr fetched ->
  ok (response fetched) = true ->
  Js.present (cookies arrived !! "accessToken") = true ->
  outcome (ValidateAccess newAccessToken) arrived = Returned payload ->
  handleTokenRefresh ev sid w
  = (Returned payload,
     unmark sid (resume (checked_world newAccessToken arrived))).
Proof.
  intros tok arrived newAccessToken Hidle Href Hfetch Hok Hnew Hvalid.
  rewrite handleTokenRefresh_cases, (wait_for_other_refresh_idle _ _ Hidle).
  rewrite own_refresh_run.
  rewrite (refresh_exchange_present (mark sid w) Href). cbv zeta.
  cbn [cookies mark record]. fold tok.
  change (exchange_of tok (mark sid w)) with (exchange_of tok w).
  rewrite Hfetch, Hok. cbn [negb]. fold arrived. rewrite Hnew. cbn [negb].
  fold newAccessToken. unfold await.
  by rewrite (ValidateAccess_returned _ _ _ Hvalid).
Qed.

(** X8: A caller that finds its session key unmarked, holds a refresh token
    and gets a successful answer returns the claims of the access token
    that is in the jar after the exchange.  Its trace is: set the mark,
    send the refresh token as [Cookie] to [/auth/refresh], import the
    key, verify the new token, delete the mark. *)
Theorem handleTokenRefresh_refreshes ev sid w fetched payload :
  let tok := default "" (cookies w !! "refreshToken") in
  let arrived := fetched_world tok fetched (mark sid w) in
  let newAccessToken := default "" (cookies arrived !! "accessToken") in
  refreshing sid w = false ->
  Js.present (cookies w !! "refreshToken") = true ->
  exchange_of tok w = inr fetched ->
  ok (response fetched) = true ->
  Js.present (cookies arrived !! "accessToken") = true ->
  outcome (ValidateAccess newAccessToken) arrived = Returned payload ->
  outcome (handleTokenRefresh ev sid) w = Returned payload /\
  trace (after (handleTokenRefresh ev sid) w)
  = (trace w
     ++ [MapSet sid;
         CallFetch "/auth/refresh" ("refreshToken=" +:+ tok);
         CallImportSPKI (Js.or_default env_spki "")
           (Js.or_default env_alg "RS256");
         CallJwtVerify newAccessToken;
         MapDelete sid])%list.
Proof.
  intros tok arrived newAccessToken Hidle Href Hfetch Hok Hnew Hvalid.
  unfold outcome, after.
  rewrite (handleTokenRefresh_idle_success ev sid w fetched payload
             Hidle Href Hfetch Hok Hnew Hvalid).
  fold tok arrived newAccessToken. split; [done|].
  cbn [snd trace unmark record].
  rewrite resume_trace, checked_world_trace.
  unfold arrived, fetched_world. rewrite resume_trace.
  cbn [trace store_cookies record mark].
  by rewrite <- !app_assoc.
Qed.

(** X9: A successful answer that stores no cookie leaves the old access
    token in the jar, and that token is what gets validated: run alone,
    the call then reports the validator's error, not a missing token,
    and ends in the login redirect. *)
Theorem handleTokenRefresh_revalidates_kept_token ev sid w fetched t :
  let tok := default "" (cookies w !! "refreshToken") in
  let old := default "" (cookies w !! "accessToken") in
  let arrived := fetched_world tok fetched (mark sid w) in
  alone w ->
  refreshing sid w = false ->
  Js.present (cookies w !! "refreshToken") = true ->
  exchange_of tok w = inr fetched ->
  ok (response fetched) = true ->
  set_cookies fetched = [] ->
  Js.present (cookies w !! "accessToken") = true ->
  outcome (ValidateAccess old) arrived = Threw t ->
  outcome (handleTokenRefresh ev sid) w = Threw (Redirect 302 "/auth/login") /\
  t <> ThrownError NoNewAccessToken /\
  exists before,
    trace (after (handleTokenRefresh ev sid) w)
    = (before ++ [ConsoleError t; MapDelete sid])%list.
Proof.
  intros tok old arrived Hw Hidle Href Hfetch Hok Hnone Hold Hinvalid.
  assert (cookies arrived = cookies w) as Hjar.
  { unfold arrived, fetched_world. rewrite Hnone.
    rewrite resume_alone; done. }
  unfold outcome, after. rewrite handleTokenRefresh_cases,
    (wait_for_other_refresh_idle _ _ Hidle), own_refresh_run.
  rewrite (refresh_exchange_present (mark sid w) Href). cbv zeta.
  cbn [cookies mark record]. fold tok.
  change (exchange_of tok (mark sid w)) with (exchange_of tok w).
  rewrite Hfetch, Hok. cbn [negb]. fold arrived.
  rewrite Hjar, Hold. cbn [negb]. fold old.
  unfold await. unfold outcome in Hinvalid.
  destruct (ValidateAccess old arrived) as [o w'] eqn:E. cbn [fst] in Hinvalid.
  subst o. cbn [fst snd].
  split; [done|]. split.
  - pose proof (ValidateAccess_throws old arrived t) as Hkind.
    unfold outcome in Hkind. rewrite E in Hkind.
    destruct (Hkind eq_refl) as [->|[code ->]]; discriminate.
  - exists (trace (resume w')). cbn [trace unmark record].
    by rewrite <- app_assoc.
Qed.

(** X10: Whatever goes wrong in a call, what its caller can catch is the
    redirect to [/auth/login], with status 302 and without a return
    address. *)
Theorem handleTokenRefresh_throws_only_redirect ev sid w t :
  outcome (handleTokenRefresh ev sid) w = Threw t ->
  t = Redirect 302 "/auth/login".
Proof.
  intros Hthrew.
  destruct (handleTokenRefresh_outcome ev sid w) as [[payload E]|E];
    congruence.
Qed.

End AttemptMore.

(** ** More on the resolvers *)

Section ResolverMore.

Context `{Collaborators}.

(** The branches of [getUserFromToken] (lines 119-135). *)
Lemma getUserFromToken_cases ev w :
  getUserFromToken ev w
  = let sid := session_id ev w in
    let refresh := fun w' =>
      if Js.present (cookies w' !! "refreshToken") then
        (do payload <~ await (handleTokenRefresh ev sid);
         ret (Some payload)) w'
      else (Returned None, w') in
    if Js.present (cookies w !! "accessToken") then
      match await (ValidateAccess (default "" (cookies w !! "accessToken"))) w with
      | (Returned payload, w') => (Returned (Some payload), w')
      | (Threw _, w') => refresh w'
      end
    else refresh w.
Proof.
  unfold getUserFromToken, bind at 1, cookies_get at 1, gets at 1.
  unfold bind at 1, gets at 1. cbv zeta.
  destruct (Js.present (cookies w !! "accessToken")).
  - unfold try_catch, bind at 1.
    destruct (await (ValidateAccess _) w) as [[payload|t] w']; [done|].
    unfold bind at 1, cookies_get at 1, gets at 1.
    by destruct (Js.present _).
  - unfold bind at 1, cookies_get at 1, gets at 1.
    by destruct (Js.present _).
Qed.

Lemma or_default_present o d :
  Js.present o = true ->
  Some (Js.or_default o d) = o /\ Js.or_default o d <> "".
Proof.
  destruct o as [s|]; [|done]. cbn [Js.present Js.or_default].
  destruct (String.eqb_spec s ""); [done|]. by intros _.
Qed.

Lemma or_default_absent o d : Js.present o = false -> Js.or_default o d = d.
Proof.
  destruct o as [s|]; [|done]. cbn [Js.present Js.or_default].
  by destruct (String.eqb_spec s "").
Qed.

(** X11: The session key is the [x-session-id] header when that is not
    empty, else the [sessionId] cookie when that is not empty, else
    ['default']; it is never the empty string. *)
Theorem session_id_never_empty ev w :
  session_id ev w <> "" /\
  (Js.present (headers ev !! "x-session-id") = true ->
   Some (session_id ev w) = headers ev !! "x-session-id") /\
  (Js.present (headers ev !! "x-session-id") = false ->
   Js.present (cookies w !! "sessionId") = true ->
   Some (session_id ev w) = cookies w !! "sessionId") /\
  (Js.present (headers ev !! "x-session-id") = false ->
   Js.present (cookies w !! "sessionId") = false ->
   session_id ev w = "default").
Proof.
  unfold session_id, Js.or_else.
  destruct (Js.present (headers ev !! "x-session-id")) eqn:Hh.
  - destruct (or_default_present _ "default" Hh) as (Hval & Hne).
    split; [done|]. split; [done|]. split; intros; done.
  - destruct (Js.present (cookies w !! "sessionId")) eqn:Hc.
    + destruct (or_default_present _ "default" Hc) as (Hval & Hne).
      split; [done|]. split; [done|]. split; intros; done.
    + rewrite (or_default_absent _ "default" Hc).
      split; [done|]. split; [done|]. split; intros; done.
Qed.

(** X12: A valid access token is answered with its claims and nothing else
    happens: no mark is set and the refresh endpoint is not called, also
    when a refresh token is at hand or the session key is marked. *)
Theorem getUserFromToken_valid_access ev w payload :
  let jwt := default "" (cookies w !! "accessToken") in
  Js.present (cookies w !! "accessToken") = true ->
  outcome (ValidateAccess jwt) w = Returned payload ->
  outcome (getUserFromToken ev) w = Returned (Some payload) /\
  trace (after (getUserFromToken ev) w)
  = (trace w ++ [CallImportSPKI (Js.or_default env_spki "")
                   (Js.or_default env_alg "RS256");
                 CallJwtVerify jwt])%list.
Proof.
  intros jwt Hacc Hvalid. unfold outcome, after.
  rewrite getUserFromToken_cases. cbv zeta. rewrite Hacc. fold jwt.
  unfold await. rewrite (ValidateAccess_returned _ _ _ Hvalid).
  split; [done|]. cbn [snd].
  by rewrite resume_trace, checked_world_trace.
Qed.

(** A successful own attempt adds one call of the refresh endpoint to the
    trace: the world at its return, read back from the world [w] in which
    the key was marked. *)
Lemma refreshed_exchanges sid jwt tok fetched w :
  exchanges (trace (resume (unmark sid (resume (checked_world jwt
                      (fetched_world tok fetched (mark sid w)))))))
  = S (exchanges (trace w)).
Proof.
  rewrite resume_trace. cbn [trace unmark record].
  rewrite resume_trace, checked_world_trace.
  unfold fetched_world. rewrite resume_trace.
  cbn [trace store_cookies record mark].
  unfold exchanges. rewrite !count_app. simpl. lia.
Qed.

(** X13: A request without an access token but with a refresh token is
    resolved by the coordinator under the request's session key: when
    that key is not marked, the exchange succeeds and the new access
    token is valid, the new claims are returned and the key is out of
    the table again. *)
Theorem getUserFromToken_refreshes ev w fetched payload :
  let sid := session_id ev w in
  let tok := default "" (cookies w !! "refreshToken") in
  let arrived := fetched_world tok fetched (mark sid w) in
  let newAccessToken := default "" (cookies arrived !! "accessToken") in
  Js.present (cookies w !! "accessToken") = false ->
  Js.present (cookies w !! "refreshToken") = true ->
  refreshing sid w = false ->
  exchange_of tok w = inr fetched ->
  ok (response fetched) = true ->
  Js.present (cookies arrived !! "accessToken") = true ->
  outcome (ValidateAccess newAccessToken) arrived = Returned payload ->
  outcome (getUserFromToken ev) w = Returned (Some payload) /\
  outcome (requireAuth ev) w = Returned payload /\
  exchanges (trace (after (getUserFromToken ev) w))
  = S (exchanges (trace w)).
Proof.
  intros sid tok arrived newAccessToken Hacc Href Hidle Hfetch Hok Hnew Hvalid.
  assert (getUserFromToken ev w
          = (Returned (Some payload),
             resume (unmark sid
                       (resume (checked_world newAccessToken arrived)))))
    as E.
  { rewrite getUserFromToken_cases. cbv zeta. rewrite Hacc, Href. fold sid.
    unfold bind, await.
    by rewrite (handleTokenRefresh_idle_success ev sid w fetched payload
                  Hidle Href Hfetch Hok Hnew Hvalid). }
  split; [unfold outcome; by rewrite E|].
  split; [unfold outcome, requireAuth, bind, await; by rewrite E|].
  unfold after. rewrite E. cbn [snd]. apply refreshed_exchanges.
Qed.

(** X14: The transparent refresh: the access token does not validate, a
    refresh token is in the jar when the failure is caught, the session
    key is not marked, the exchange succeeds and the access token then
    in the jar is valid.  The request is resolved with the claims of
    that new token, after one call of the refresh endpoint. *)
Theorem getUserFromToken_replaces_invalid_token ev w t fetched payload :
  let jwt := default "" (cookies w !! "accessToken") in
  let sid := session_id ev w in
  let caught := resume (after (ValidateAccess jwt) w) in
  let tok := default "" (cookies caught !! "refreshToken") in
  let arrived := fetched_world tok fetched (mark sid caught) in
  let newAccessToken := default "" (cookies arrived !! "accessToken") in
  Js.present (cookies w !! "accessToken") = true ->
  outcome (ValidateAccess jwt) w = Threw t ->
  Js.present (cookies caught !! "refreshToken") = true ->
  refreshing sid caught = false ->
  exchange_of tok caught = inr fetched ->
  ok (response fetched) = true ->
  Js.present (cookies arrived !! "accessToken") = true ->
  outcome (ValidateAccess newAccessToken) arrived = Returned payload ->
  outcome (getUserFromToken ev) w = Returned (Some payload) /\
  outcome (requireAuth ev) w = Returned payload /\
  exchanges (trace (after (getUserFromToken ev) w))
  = S (exchanges (trace caught)) /\
  refreshingStates (after (handleTokenRefresh ev sid) caught) !! sid = None.
Proof.
  intros jwt sid caught tok arrived newAccessToken
    Hacc Hinvalid Href Hidle Hfetch Hok Hnew Hvalid.
  pose proof (handleTokenRefresh_idle_success ev sid caught fetched payload
                Hidle Href Hfetch Hok Hnew Hvalid) as Hrun.
  fold tok arrived newAccessToken in Hrun.
  assert (getUserFromToken ev w
          = (Returned (Some payload),
             resume (unmark sid
                       (resume (checked_world newAccessToken arrived)))))
    as E.
  { rewrite getUserFromToken_cases. cbv zeta. rewrite Hacc. fold sid jwt.
    unfold await at 1. subst caught. unfold outcome, after in *.
    destruct (ValidateAccess jwt w) as [o w']. cbn [fst snd] in *. subst o.
    rewrite Href. unfold bind, await. by rewrite Hrun. }
  split; [unfold outcome; by rewrite E|].
  split; [unfold outcome, requireAuth, bind, await; by rewrite E|].
  split.
  - unfold after. rewrite E. cbn [snd]. apply refreshed_exchanges.
  - unfold after. rewrite Hrun. apply unmark_absent.
Qed.

(** X15: [requireAuth] ends in one of three ways: with the claims that
    [getUserFromToken] returned; with a 302 redirect to
    [/auth/login?returnUrl=...] when it returned [null]; or with the 302
    redirect to [/auth/login] that the coordinator threw. *)
Theorem requireAuth_outcome ev w :
  (exists payload,
      outcome (getUserFromToken ev) w = Returned (Some payload) /\
      outcome (requireAuth ev) w = Returned payload) \/
  (outcome (getUserFromToken ev) w = Returned None /\
   outcome (requireAuth ev) w = Threw (Redirect 302 (login_with_return ev))) \/
  (outcome (getUserFromToken ev) w = Threw (Redirect 302 "/auth/login") /\
   outcome (requireAuth ev) w = Threw (Redirect 302 "/auth/login")).
Proof.
  destruct (getUserFromToken_outcome ev w) as [[user E]|E].
  - unfold outcome, requireAuth, bind, await in *.
    destruct (getUserFromToken ev w) as [o w']. cbn [fst] in *. subst o.
    destruct user as [payload|]; [left; eauto|right; left; done].
  - right; right. split; [done|].
    unfold outcome, requireAuth, bind, await in *.
    destruct (getUserFromToken ev w) as [o w']. cbn [fst] in *. by subst o.
Qed.

(** X16: [isAuthenticated] always answers, and it answers [true] exactly for
    the requests that [requireAuth] lets through; the login redirect of
    a failed refresh becomes [false]. *)
Theorem isAuthenticated_agrees_with_requireAuth ev w :
  (exists answer, outcome (isAuthenticated ev) w = Returned answer) /\
  (outcome (isAuthenticated ev) w = Returned true <->
   exists payload, outcome (requireAuth ev) w = Returned payload) /\
  (outcome (getUserFromToken ev) w = Threw (Redirect 302 "/auth/login") ->
   outcome (isAuthenticated ev) w = Returned false).
Proof.
  unfold outcome, isAuthenticated, requireAuth, try_catch, bind, await.
  destruct (getUserFromToken ev w) as [[[payload|]|t] w']; cbn [fst].
  - split; [eauto|]. split; [|done]. split; eauto.
  - split; [eauto|]. split; [|done].
    split; [done|]. intros [payload Hp]. done.
  - split; [eauto|]. split; [|done].
    split; [done|]. intros [payload Hp]. done.
Qed.

(** X17: When [getUserFromToken] returns [null], [requireAuth] throws a 302
    redirect to [/auth/login?returnUrl=] followed by a value that is the
    percent-encoding of the path followed by that of the query string.
    The value consists of unreserved characters and [%] only, so none of
    [&], [=], [#], [?], [/], [:], [+] and the space occurs in it. *)
Theorem requireAuth_return_address_is_escaped ev w :
  outcome (getUserFromToken ev) w = Returned None ->
  exists value,
    outcome (requireAuth ev) w
    = Threw (Redirect 302 ("/auth/login?returnUrl=" +:+ value)) /\
    value = Js.encodeURIComponent (url_pathname ev)
            +:+ Js.encodeURIComponent (url_search ev) /\
    forallb (fun c => Js.unreserved c || Ascii.eqb c "%")
      (list_ascii_of_string value) = true /\
    forall c,
      In c ["&"; "="; "#"; "?"; "/"; ":"; "+"; " "]%char ->
      ~ In c (list_ascii_of_string value).
Proof.
  intros Hnone.
  exists (Js.encodeURIComponent (url_pathname ev +:+ url_search ev)).
  pose proof (encodeURIComponent_safe (url_pathname ev +:+ url_search ev))
    as Hsafe.
  split.
  { unfold outcome, requireAuth, bind, await in *.
    destruct (getUserFromToken ev w) as [o w']. cbn [fst] in *. by subst o. }
  split; [apply encodeURIComponent_app|].
  split; [exact Hsafe|].
  intros c Hbad Hin.
  rewrite forallb_forall in Hsafe. specialize (Hsafe c Hin).
  cbn [In] in Hbad.
  repeat (destruct Hbad as [<-|Hbad]; [discriminate Hsafe|]).
  done.
Qed.

(** X18: One resolution sleeps at most 30 times, calls the refresh endpoint
    at most once and verifies at most three signatures. *)
Theorem getUserFromToken_effort ev w :
  within 30 1 3 w (after (getUserFromToken ev) w).
Proof.
  assert (forall sid w',
             within 30 1 2 w'
               (after (do payload <~ await (handleTokenRefresh ev sid);
                       ret (Some payload)) w')) as Hrefresh.
  { intros sid w'.
    assert (within 30 1 2 w' (after (await (handleTokenRefresh ev sid)) w'))
      as Hcall.
    { rewrite after_await.
      destruct (wait_for_other_refresh_within sid w') as (Hwait & _).
      destruct (wait_for_other_refresh_returns sid w') as [early Hret].
      apply (within_trans 30 1 2 0 0 0 w' (after (handleTokenRefresh ev sid) w'));
        [|apply within_same, resume_trace].
      unfold outcome, after in *. rewrite handleTokenRefresh_cases.
      destruct (wait_for_other_refresh sid w') as [o w1]. cbn [fst snd] in *.
      subst o. destruct early as [payload|].
      - eapply within_weaken; [exact Hwait|lia..].
      - apply (within_trans 30 0 1 0 1 1 _ _ _ Hwait), own_refresh_within. }
    unfold after, bind in *.
    by destruct (await (handleTokenRefresh ev sid) w') as [[payload|t] w1]. }
  unfold after. rewrite getUserFromToken_cases. cbv zeta.
  destruct (Js.present (cookies w !! "accessToken")).
  - pose proof (awaited_ValidateAccess_within
                  (default "" (cookies w !! "accessToken")) w) as Hv.
    unfold after in Hv.
    destruct (await (ValidateAccess _) w) as [[payload|t] w']; cbn [snd] in *.
    + eapply within_weaken; [exact Hv|lia..].
    + destruct (Js.present _).
      * apply (within_trans 0 0 1 30 1 2 _ _ _ Hv), Hrefresh.
      * eapply within_weaken; [exact Hv|lia..].
  - destruct (Js.present _).
    + eapply within_weaken; [apply Hrefresh|lia..].
    + eapply within_weaken; [by apply within_same|lia..].
Qed.

End ResolverMore.

(** ** The further properties at work in the concrete deployment *)

Module Checks.

Import Demo Scenes.

(** Feed a statement its premises, each one by evaluation. *)
Ltac evaluate_premises P :=
  cbv zeta in P;
  repeat match type of P with
         | ?A -> _ =>
             let h := fresh in
             assert (h : A) by (vm_compute; reflexivity);
             specialize (P h); clear h
         end.

Lemma demo_verifies jwt w payload :
  verify jwt (clock (resume w)) = inr payload -> verifies jwt w payload.
Proof.
  intros E. exists (ImportedKey "-----BEGIN PUBLIC KEY-----" "RS256").
  split; [reflexivity|exact E].
Qed.

(** *** The validator *)

(** At second 980 the token that expires at second 1010 has exactly the
    30 seconds of the buffer left, and is accepted. *)
Lemma ValidateAccess_accepts_from_buffer_on_witness :
  let w := quiet_at 980000 ∅ in
  verifies "stale" w (claims (Js.Number 1010)) /\
  payload_exp (claims (Js.Number 1010)) = Js.Number 1010 /\
  1010 <> 0 /\
  EXPIRY_BUFFER <= 1010 - now_seconds (resume (resume w)) /\
  30000 <= 1000 * 1010 - clock (resume (resume w)) /\
  outcome (ValidateAccess "stale") w = Returned (claims (Js.Number 1010)).
Proof.
  intros w.
  assert (verifies "stale" w (claims (Js.Number 1010))) as Hv
    by (apply demo_verifies; reflexivity).
  split; [exact Hv|]. split; [reflexivity|]. split; [lia|].
  split; [by vm_compute|]. split; [by vm_compute|].
  destruct (ValidateAccess_accepts_from_buffer_on "stale" w
              (claims (Js.Number 1010)) 1010 Hv) as (_ & _ & Haccepted);
    [reflexivity | lia |].
  apply Haccepted. by vm_compute.
Defined.

Lemma ValidateAccess_key_import_rejected_witness :
  let w := quiet ∅ in
  importSPKI (Collaborators := unconfigured) "" "RS256"
  = inl "ERR_JOSE_NOT_SUPPORTED" /\
  outcome (ValidateAccess (H := unconfigured) "good") w
  = Threw (ThrownError (JoseError "ERR_JOSE_NOT_SUPPORTED")) /\
  trace (after (ValidateAccess (H := unconfigured) "good") w)
  = [CallImportSPKI "" "RS256"].
Proof.
  intros w. split; [reflexivity|].
  apply (ValidateAccess_key_import_rejected (H := unconfigured) "good" w
           "ERR_JOSE_NOT_SUPPORTED").
  reflexivity.
Defined.

Lemma ValidateAccess_verification_rejected_witness :
  let w := quiet ∅ in
  let key := ImportedKey "-----BEGIN PUBLIC KEY-----" "RS256" in
  importSPKI "-----BEGIN PUBLIC KEY-----" "RS256" = inr key /\
  jwtVerify "forged" key "auth:auth" (clock (resume w))
  = inl "ERR_JWS_SIGNATURE_VERIFICATION_FAILED" /\
  outcome (ValidateAccess "forged") w
  = Threw (ThrownError (JoseError "ERR_JWS_SIGNATURE_VERIFICATION_FAILED")).
Proof.
  intros w key. split; [reflexivity|]. split; [reflexivity|].
  apply (ValidateAccess_verification_rejected "forged" w key); reflexivity.
Defined.

Lemma ValidateAccess_leaves_store_witness :
  let w := contended {[ "accessToken" := "good"; "refreshToken" := "r1" ]} in
  let w' := after (ValidateAccess "good") w in
  alone w /\
  refreshingStates w' = refreshingStates w /\
  cookies w' = cookies w /\
  clock w' = clock w /\
  (trace w' = (trace w ++ [CallImportSPKI "-----BEGIN PUBLIC KEY-----" "RS256"])%list \/
   trace w' = (trace w ++ [CallImportSPKI "-----BEGIN PUBLIC KEY-----" "RS256";
                           CallJwtVerify "good"])%list).
Proof.
  intros w w'. split; [reflexivity|].
  exact (ValidateAccess_leaves_store "good" w eq_refl).
Defined.

(** *** The coordinator *)

(** While ["tab-2"] is refreshing, a call for ["default"] makes its own
    attempt at once; afterwards ["tab-2"] is still marked and
    ["default"] is not in the table. *)
Lemma handleTokenRefresh_table_alone_witness :
  let w := other_session_busy {[ "refreshToken" := "r1" ]} in
  let w' := after (handleTokenRefresh event "default") w in
  alone w /\
  refreshingStates w' = delete "default" (refreshingStates w) /\
  refreshingStates w' !! "tab-2" = Some true /\
  sleeps (trace w') = 0%nat.
Proof.
  intros w w'.
  destruct (handleTokenRefresh_table_alone event "default" w eq_refl)
    as (Htable & Hother).
  split; [reflexivity|]. split; [exact Htable|].
  split; [|reflexivity].
  unfold w'. rewrite (Hother "tab-2"); [reflexivity|discriminate].
Defined.

Lemma handleTokenRefresh_waits_out_the_cap_witness :
  let w := contended {[ "refreshToken" := "r1" ]} in
  let waited := after (wait_while_refreshing "default" 30) w in
  alone w /\
  refreshing "default" w = true /\
  outcome (wait_while_refreshing "default" 30) w = Returned 30 /\
  clock waited = clock w + 3000 /\
  refreshing "default" waited = true /\
  trace waited = (trace w ++ repeat (SetTimeout 100) 30)%list.
Proof.
  intros w waited. split; [reflexivity|]. split; [reflexivity|].
  apply (handleTokenRefresh_waits_out_the_cap "default" w); reflexivity.
Defined.

(** The holder deletes the mark during the third sleep: three attempts. *)
Lemma handleTokenRefresh_wait_ends_at_release_witness :
  let w := released {[ "accessToken" := "good" ]} in
  (3 <= 30)%nat /\
  refreshing "default" (napped 0 w) = true /\
  refreshing "default" (napped 1 w) = true /\
  refreshing "default" (napped 2 w) = true /\
  refreshing "default" (napped 3 w) = false /\
  wait_while_refreshing "default" 30 w = (Returned 3, napped 3 w) /\
  trace (napped 3 w) = (trace w ++ repeat (SetTimeout 100) 3)%list.
Proof.
  intros w. split; [lia|].
  do 4 (split; [vm_compute; reflexivity|]).
  apply (handleTokenRefresh_wait_ends_at_release "default" 3 w).
  - lia.
  - intros i Hi.
    destruct i as [|[|[|i]]]; [vm_compute; reflexivity ..|lia].
  - intros _. vm_compute; reflexivity.
Defined.

Lemma handleTokenRefresh_refreshes_witness :
  let w := quiet {[ "refreshToken" := "r1" ]} in
  outcome (handleTokenRefresh event "default") w
  = Returned (claims (Js.Number 2000)) /\
  trace (after (handleTokenRefresh event "default") w)
  = [MapSet "default";
     CallFetch "/auth/refresh" "refreshToken=r1";
     CallImportSPKI "-----BEGIN PUBLIC KEY-----" "RS256";
     CallJwtVerify "good";
     MapDelete "default"].
Proof.
  intros w.
  pose proof (handleTokenRefresh_refreshes event "default" w
                (mkFetched (mkResponse true 200) [("accessToken", "good")])
                (claims (Js.Number 2000))) as P.
  evaluate_premises P.
  vm_compute in P. vm_compute. exact P.
Defined.

(** The endpoint answers 204 without a cookie; the old token, about to
    expire, is validated again and the call ends in the redirect. *)
Lemma handleTokenRefresh_revalidates_kept_token_witness :
  let w := quiet {[ "accessToken" := "stale"; "refreshToken" := "r0" ]} in
  outcome (handleTokenRefresh event "default") w
  = Threw (Redirect 302 "/auth/login") /\
  ThrownError TokenAboutToExpire <> ThrownError NoNewAccessToken /\
  exists before,
    trace (after (handleTokenRefresh event "default") w)
    = (before ++ [ConsoleError (ThrownError TokenAboutToExpire);
                  MapDelete "default"])%list.
Proof.
  intros w.
  pose proof (handleTokenRefresh_revalidates_kept_token event "default" w
                (mkFetched (mkResponse true 204) [])
                (ThrownError TokenAboutToExpire)) as P.
  evaluate_premises P. exact P.
Defined.

Lemma handleTokenRefresh_throws_only_redirect_witness :
  let w := quiet {[ "refreshToken" := "r2" ]} in
  outcome (handleTokenRefresh event "default") w
  = Threw (Redirect 302 "/auth/login") /\
  Redirect 302 "/auth/login" = Redirect 302 "/auth/login".
Proof.
  intros w.
  assert (outcome (handleTokenRefresh event "default") w
          = Threw (Redirect 302 "/auth/login")) as E by reflexivity.
  split; [exact E|].
  exact (handleTokenRefresh_throws_only_redirect event "default" w _ E).
Defined.

(** *** The resolvers *)

(** The session key is marked and a refresh token is at hand; the valid
    access token is answered all the same, without a sleep. *)
Lemma getUserFromToken_valid_access_witness :
  let w := contended {[ "accessToken" := "good"; "refreshToken" := "r1" ]} in
  Js.present (cookies w !! "accessToken") = true /\
  outcome (ValidateAccess "good") w = Returned (claims (Js.Number 2000)) /\
  outcome (getUserFromToken event) w = Returned (Some (claims (Js.Number 2000))) /\
  trace (after (getUserFromToken event) w)
  = [CallImportSPKI "-----BEGIN PUBLIC KEY-----" "RS256"; CallJwtVerify "good"].
Proof.
  intros w. split; [reflexivity|]. split; [reflexivity|].
  exact (getUserFromToken_valid_access event w (claims (Js.Number 2000))
           eq_refl eq_refl).
Defined.

(** The request names its session ["tab-1"]; that ["tab-2"] is
    refreshing does not hold it up. *)
Lemma getUserFromToken_refreshes_witness :
  let w := other_session_busy {[ "refreshToken" := "r1" ]} in
  session_id (named_event "tab-1") w = "tab-1" /\
  outcome (getUserFromToken (named_event "tab-1")) w
  = Returned (Some (claims (Js.Number 2000))) /\
  outcome (requireAuth (named_event "tab-1")) w
  = Returned (claims (Js.Number 2000)) /\
  exchanges (trace (after (getUserFromToken (named_event "tab-1")) w)) = 1%nat.
Proof.
  intros w. split; [reflexivity|].
  pose proof (getUserFromToken_refreshes (named_event "tab-1") w
                (mkFetched (mkResponse true 200) [("accessToken", "good")])
                (claims (Js.Number 2000))) as P.
  evaluate_premises P.
  vm_compute in P. vm_compute. exact P.
Defined.

Lemma getUserFromToken_replaces_invalid_token_witness :
  let w := quiet {[ "accessToken" := "stale"; "refreshToken" := "r1" ]} in
  outcome (ValidateAccess "stale") w = Threw (ThrownError TokenAboutToExpire) /\
  outcome (getUserFromToken event) w
  = Returned (Some (claims (Js.Number 2000))) /\
  outcome (requireAuth event) w = Returned (claims (Js.Number 2000)).
Proof.
  intros w. split; [reflexivity|].
  pose proof (getUserFromToken_replaces_invalid_token event w
                (ThrownError TokenAboutToExpire)
                (mkFetched (mkResponse true 200) [("accessToken", "good")])
                (claims (Js.Number 2000))) as P.
  evaluate_premises P.
  destruct P as (Hget & Hreq & _). split; [exact Hget|exact Hreq].
Defined.

(** The request for [/dashboard?tab=a b] with a token about to expire and
    no refresh token is sent to the login page with its address
    escaped. *)
Lemma requireAuth_return_address_is_escaped_witness :
  let w := quiet {[ "accessToken" := "stale" ]} in
  outcome (getUserFromToken event) w = Returned None /\
  exists value,
    outcome (requireAuth event) w
    = Threw (Redirect 302 ("/auth/login?returnUrl=" +:+ value)) /\
    value = Js.encodeURIComponent (url_pathname event)
            +:+ Js.encodeURIComponent (url_search event) /\
    forallb (fun c => Js.unreserved c || Ascii.eqb c "%")
      (list_ascii_of_string value) = true /\
    forall c,
      In c ["&"; "="; "#"; "?"; "/"; ":"; "+"; " "]%char ->
      ~ In c (list_ascii_of_string value).
Proof.
  intros w.
  assert (outcome (getUserFromToken event) w = Returned None) as Hnone
    by (vm_compute; reflexivity).
  split; [exact Hnone|].
  exact (requireAuth_return_address_is_escaped event w Hnone).
Defined.

End Checks.
